(** * CircularBuffer.h: a shallow embedding of [CircularBuffer<Unit>]

    The class template of [src/CircularBuffer.h] is embedded as a record of
    its data members and one function per member function.  The embedding
    follows the code that is compiled (the [#if 1] branches, the
    data-mapping insertion and extraction).

    - [int] members and arguments are integers of [Z].  From a buffer in
      a reachable state the member functions compute values between [-1]
      and twice the capacity (and byte counts up to the size of the
      array), so for capacities below 2^30 no [int] overflows, and none
      is modelled.
    - [m_buffer] is the owned array ([None] for the null pointer), a list
      of [Unit]; a pointer into it is an element index.
    - [memcpy] is [load] followed by [store]; a copy that touches the null
      pointer, leaves its array or has a negative length is undefined
      behaviour and is reported as a [Fault].
    - [m_buffer_lock] only serialises the calls; the model is sequential.

    Of [src/main.cpp] the checksum is embedded ([generate_crc_lookup_table]
    and [crc]); the timed driver, with its random draws and clocks, is
    not. *)

From Stdlib Require Import ZArith List Lia Bool.
Import ListNotations.
Open Scope Z_scope.

(** ** Results of calls *)

Inductive fault : Type :=
| NullPointer       (* memcpy through a null m_buffer *)
| OutOfBounds       (* memcpy outside the array, or with a negative size *)
| AssertionFailed   (* assert(...) in transfer() *)
| BadArrayLength.   (* new Unit[n] with n < 0 *)

Inductive result (A : Type) : Type :=
| Ok (a : A)
| Fault (f : fault).

Arguments Ok {A} a.
Arguments Fault {A} f.

Definition bind {A B : Type} (r : result A) (k : A -> result B) : result B :=
  match r with
  | Ok a => k a
  | Fault f => Fault f
  end.

Notation "x <- r ;; k" := (bind r (fun x => k))
  (at level 61, r at next level, right associativity).


(** ** The template parameter

    What the class template needs of [Unit]: its [sizeof], which is
    positive, and the value an uninitialised slot of [new Unit[n]] happens
    to hold. *)

Class UnitType (Unit : Type) : Type := {
  sizeof : Z;
  sizeof_pos : 0 < sizeof;
  indeterminate : Unit
}.

Section Buffer.

Context {Unit : Type} {UT : UnitType Unit}.

(** [using BufferPtr = std::unique_ptr<Unit>] *)
Definition BufferPtr : Type := option (list Unit).

Record CircularBuffer : Type := mkCircularBuffer {
  m_unit_size : Z;
  m_unit_count : Z;
  m_buffer_head : Z;
  m_buffer_tail : Z;
  m_buffer : BufferPtr;
  m_used_slots : Z
}.

Definition set_head (s : CircularBuffer) (v : Z) : CircularBuffer :=
  mkCircularBuffer (m_unit_size s) (m_unit_count s) v (m_buffer_tail s)
                   (m_buffer s) (m_used_slots s).

Definition set_tail (s : CircularBuffer) (v : Z) : CircularBuffer :=
  mkCircularBuffer (m_unit_size s) (m_unit_count s) (m_buffer_head s) v
                   (m_buffer s) (m_used_slots s).

Definition set_buffer (s : CircularBuffer) (b : BufferPtr) : CircularBuffer :=
  mkCircularBuffer (m_unit_size s) (m_unit_count s) (m_buffer_head s)
                   (m_buffer_tail s) b (m_used_slots s).

Definition set_used (s : CircularBuffer) (v : Z) : CircularBuffer :=
  mkCircularBuffer (m_unit_size s) (m_unit_count s) (m_buffer_head s)
                   (m_buffer_tail s) (m_buffer s) v.

(** ** memcpy *)

Definition len (l : list Unit) : Z := Z.of_nat (length l).

(** The first [n] elements of an array, and what follows them. *)
Definition take (n : Z) (l : list Unit) : list Unit := firstn (Z.to_nat n) l.
Definition drop (n : Z) (l : list Unit) : list Unit := skipn (Z.to_nat n) l.

(** The units [memcpy] reads from element [off] of [src] when asked for
    [nbytes] bytes, which are [nbytes / sizeof] units.  A negative size
    becomes a huge [size_t]. *)
Definition load (src : BufferPtr) (off nbytes : Z) : result (list Unit) :=
  match src with
  | None => Fault NullPointer
  | Some l =>
      let n := nbytes / sizeof in
      if (0 <=? off) && (0 <=? nbytes) && (off + n <=? len l)
      then Ok (take n (drop off l))
      else Fault OutOfBounds
  end.

(** The array after [memcpy] has written the units [us] from element [off]
    of [dst] on. *)
Definition store (dst : BufferPtr) (off : Z) (us : list Unit)
  : result BufferPtr :=
  match dst with
  | None => Fault NullPointer
  | Some l =>
      if (0 <=? off) && (off + len us <=? len l)
      then Ok (Some (take off l ++ us ++ drop (off + len us) l))
      else Fault OutOfBounds
  end.

(** [::memcpy(dst + doff, src + soff, nbytes)], the offsets in elements as
    pointer arithmetic on [Unit*] counts them. *)
Definition memcpy (dst : BufferPtr) (doff : Z) (src : BufferPtr) (soff : Z)
           (nbytes : Z) : result BufferPtr :=
  us <- load src soff nbytes ;;
  store dst doff us.

(** ** Construction and reset *)

Definition reset (s : CircularBuffer) : CircularBuffer :=
  let s := set_head s 0 in
  let s := set_tail s 0 in
  s.

(** The default member initialisers ([{0}], a null [m_buffer]). *)
Definition default_members : CircularBuffer :=
  mkCircularBuffer 0 0 0 0 None 0.

(** [CircularBuffer(int unit_count = 0)] *)
Definition construct (unit_count : Z) : result CircularBuffer :=
  if unit_count <? 0 then Fault BadArrayLength
  else
    let b := if unit_count =? 0 then None
             else Some (repeat indeterminate (Z.to_nat unit_count)) in
    Ok (reset (mkCircularBuffer sizeof unit_count 0 0 b 0)).

(** ** Cursors as pointers

    [m_buffer.get() + offset] is arithmetic on a [Unit*]: it advances by
    [offset] elements, and [offset] is the cursor times [m_unit_size]. *)

Definition get_buffer_head (s : CircularBuffer) : Z :=
  let offset := m_buffer_head s * m_unit_size s in
  offset.

Definition get_buffer_tail (s : CircularBuffer) : Z :=
  let offset := m_buffer_tail s * m_unit_size s in
  offset.

(** ** insert_units

    [data] is the caller's array; the pointer [data] starts at its element
    0.  The result is the returned Boolean and the buffer after the call. *)

Definition insert_units (s : CircularBuffer) (data : list Unit)
           (unit_count : Z) : result (bool * CircularBuffer) :=
  if m_unit_count s =? 0 then Ok (false, s)
  else
    let fs := m_unit_count s - m_used_slots s in
    if fs <? unit_count then Ok (false, s)
    else
      let p := get_buffer_head s in
      if m_buffer_head s <? m_buffer_tail s then
        let left_in_buffer := m_buffer_tail s - m_buffer_head s in
        if left_in_buffer <? unit_count then Ok (false, s)
        else
          b <- memcpy (m_buffer s) p (Some data) 0
                      (unit_count * m_unit_size s) ;;
          let s := set_buffer s b in
          let s := set_used s (m_used_slots s + unit_count) in
          let s := set_head s (m_buffer_head s + unit_count) in
          Ok (true, s)
      else
        let left_in_buffer := m_unit_count s - m_buffer_head s in
        if left_in_buffer >=? unit_count then
          b <- memcpy (m_buffer s) p (Some data) 0
                      (unit_count * m_unit_size s) ;;
          let s := set_buffer s b in
          let s := set_used s (m_used_slots s + unit_count) in
          let s := set_head s (m_buffer_head s + unit_count) in
          Ok (true, s)
        else if left_in_buffer + (m_buffer_tail s - 1) <? unit_count
        then Ok (false, s)
        else
          b <- memcpy (m_buffer s) p (Some data) 0
                      (left_in_buffer * m_unit_size s) ;;
          let s := set_buffer s b in
          let s := set_used s (m_used_slots s + left_in_buffer) in
          let unit_count := unit_count - left_in_buffer in
          let data_off := left_in_buffer in
          let s := set_head s 0 in
          let p := get_buffer_head s in
          b <- memcpy (m_buffer s) p (Some data) data_off
                      (unit_count * m_unit_size s) ;;
          let s := set_buffer s b in
          let s := set_used s (m_used_slots s + unit_count) in
          let s := set_head s (m_buffer_head s + unit_count) in
          Ok (true, s).

(** ** extract_units

    The result is the returned Boolean, the units written to the caller's
    [data] (in the order of their addresses) and the buffer after the
    call.  Reading never changes [m_buffer]. *)

Definition extract_units (s : CircularBuffer) (unit_count : Z)
  : result (bool * list Unit * CircularBuffer) :=
  if m_unit_count s =? 0 then Ok (false, [], s)
  else if m_used_slots s <? unit_count then Ok (false, [], s)
  else
    let p := get_buffer_tail s in
    if m_buffer_head s <? m_buffer_tail s then
      let data_count := m_unit_count s - m_buffer_tail s in
      if data_count <? unit_count then
        out1 <- load (m_buffer s) p (data_count * m_unit_size s) ;;
        let unit_count := unit_count - data_count in
        let s := set_used s (m_used_slots s - data_count) in
        let s := set_tail s 0 in
        let p := get_buffer_tail s in
        out2 <- load (m_buffer s) p (unit_count * m_unit_size s) ;;
        let s := set_used s (m_used_slots s - unit_count) in
        let s := set_tail s (m_buffer_tail s + unit_count) in
        Ok (true, out1 ++ out2, s)
      else
        out <- load (m_buffer s) p (unit_count * m_unit_size s) ;;
        let s := set_used s (m_used_slots s - unit_count) in
        let s := set_tail s (m_buffer_tail s + unit_count) in
        Ok (true, out, s)
    else
      let data_count := m_buffer_head s - m_buffer_tail s in
      if data_count <? unit_count then Ok (false, [], s)
      else
        out <- load (m_buffer s) p (unit_count * m_unit_size s) ;;
        let s := set_used s (m_used_slots s - unit_count) in
        let s := set_tail s (m_buffer_tail s + unit_count) in
        Ok (true, out, s).

(** [extract_units] with the caller's array: [data] is the array the
    pointer [data] points to, at its element 0, and the result holds the
    array after the call.  A copy that does not fit the array is
    undefined behaviour, a [Fault]. *)
Definition extract_units_to (s : CircularBuffer) (data : list Unit)
           (unit_count : Z) : result (bool * list Unit * CircularBuffer) :=
  if m_unit_count s =? 0 then Ok (false, data, s)
  else if m_used_slots s <? unit_count then Ok (false, data, s)
  else
    let p := get_buffer_tail s in
    if m_buffer_head s <? m_buffer_tail s then
      let data_count := m_unit_count s - m_buffer_tail s in
      if data_count <? unit_count then
        d <- memcpy (Some data) 0 (m_buffer s) p
                    (data_count * m_unit_size s) ;;
        let data_off := data_count in
        let unit_count := unit_count - data_count in
        let s := set_used s (m_used_slots s - data_count) in
        let s := set_tail s 0 in
        let p := get_buffer_tail s in
        d <- memcpy d data_off (m_buffer s) p
                    (unit_count * m_unit_size s) ;;
        let s := set_used s (m_used_slots s - unit_count) in
        let s := set_tail s (m_buffer_tail s + unit_count) in
        Ok (true, match d with Some l => l | None => [] end, s)
      else
        d <- memcpy (Some data) 0 (m_buffer s) p
                    (unit_count * m_unit_size s) ;;
        let s := set_used s (m_used_slots s - unit_count) in
        let s := set_tail s (m_buffer_tail s + unit_count) in
        Ok (true, match d with Some l => l | None => [] end, s)
    else
      let data_count := m_buffer_head s - m_buffer_tail s in
      if data_count <? unit_count then Ok (false, data, s)
      else
        d <- memcpy (Some data) 0 (m_buffer s) p
                    (unit_count * m_unit_size s) ;;
        let s := set_used s (m_used_slots s - unit_count) in
        let s := set_tail s (m_buffer_tail s + unit_count) in
        Ok (true, match d with Some l => l | None => [] end, s).

(** ** Occupancy queries *)

Definition used_space (s : CircularBuffer) : Z := m_used_slots s.

Definition free_space (s : CircularBuffer) : Z :=
  m_unit_count s - m_used_slots s.

(** ** transfer, copy construction and copy assignment

    [this] is the destination.  [<cassert>] is included before the header
    and [NDEBUG] is not defined, so the assertion is live.  [this] and
    [source] are two objects, each with its own storage: an assignment of
    a buffer to itself, where the copies of [memcpy] overlap, is outside
    this model. *)

Definition transfer (this source : CircularBuffer) : result CircularBuffer :=
  if negb (m_buffer_head source =? m_buffer_tail source) then
    if negb ((m_unit_size source =? m_unit_size this)
             || (m_unit_count source <=? m_unit_count this))
    then Fault AssertionFailed
    else
      b <- (if m_buffer_head source >? m_buffer_tail source then
              let tail_offset := m_buffer_tail source * m_unit_size source in
              memcpy (m_buffer this) 0 (m_buffer source) tail_offset
                     (m_used_slots source * m_unit_size source)
            else
              let p := 0 in
              let tail_offset := m_buffer_tail source * m_unit_size source in
              let unit_count := m_unit_count source - m_buffer_tail source in
              b1 <- memcpy (m_buffer this) p (m_buffer source) tail_offset
                           (unit_count * m_unit_size source) ;;
              let p := p + unit_count in
              memcpy b1 p (m_buffer source) 0
                     (m_buffer_head source * m_unit_size source)) ;;
      let s := set_buffer this b in
      let s := set_tail s 0 in
      let s := set_head s (m_used_slots source) in
      let s := set_used s (m_used_slots source) in
      Ok s
  else Ok this.

(** [CircularBuffer(const CircularBuffer& source)] *)
Definition copy_construct (source : CircularBuffer) : result CircularBuffer :=
  transfer default_members source.

(** [operator=(const CircularBuffer& source)] *)
Definition copy_assign (this source : CircularBuffer)
  : result CircularBuffer :=
  transfer this source.

(** ** Reachable states and the units they hold

    [history s q]: [s] is reached from a constructed buffer by calls of
    [insert_units] and [extract_units] that returned, and [q] lists the
    units inserted so far that no extraction has removed yet, oldest
    first. *)

Inductive history : CircularBuffer -> list Unit -> Prop :=
| hist_new : forall unit_count s,
    construct unit_count = Ok s ->
    history s []
| hist_insert : forall s q data unit_count ok s',
    history s q ->
    insert_units s data unit_count = Ok (ok, s') ->
    history s' (if ok then q ++ take unit_count data else q)
| hist_extract : forall s q unit_count ok out s',
    history s q ->
    extract_units s unit_count = Ok (ok, out, s') ->
    history s' (if ok then drop unit_count q else q).

Definition reachable (s : CircularBuffer) : Prop :=
  exists q, history s q.

(** The sum of the counts of a run of calls. *)
Definition total (counts : list Z) : Z := fold_right Z.add 0 counts.

(** [extractions s counts outs s']: a run of successful [extract_units]
    calls from [s] to [s'] with no other call in between; [counts] are
    the counts asked for and [outs] what each call copied out, in the
    order of the calls. *)
Inductive extractions
  : CircularBuffer -> list Z -> list (list Unit) -> CircularBuffer -> Prop :=
| extractions_done : forall s,
    extractions s [] [] s
| extractions_next : forall s unit_count out s1 counts outs s2,
    extract_units s unit_count = Ok (true, out, s1) ->
    extractions s1 counts outs s2 ->
    extractions s (unit_count :: counts) (out :: outs) s2.

(** A sequence of calls, and the buffer it leads to from a constructed
    one, with the units inserted and not yet removed. *)
Inductive call : Type :=
| Insert (data : list Unit) (unit_count : Z)
| Extract (unit_count : Z).

Fixpoint replay (s : CircularBuffer) (q : list Unit) (calls : list call)
  : result (CircularBuffer * list Unit) :=
  match calls with
  | [] => Ok (s, q)
  | Insert data unit_count :: calls =>
      r <- insert_units s data unit_count ;;
      replay (snd r) (if fst r then q ++ take unit_count data else q) calls
  | Extract unit_count :: calls =>
      r <- extract_units s unit_count ;;
      replay (snd r) (if fst (fst r) then drop unit_count q else q) calls
  end.

Definition run (unit_count : Z) (calls : list call)
  : result (CircularBuffer * list Unit) :=
  s <- construct unit_count ;;
  replay s [] calls.

(** ** The paths through the calls *)

(** The buffer after a successful [insert_units] that copied in one
    block. *)
Definition inserted (s : CircularBuffer) (b : BufferPtr) (n : Z)
  : CircularBuffer :=
  mkCircularBuffer (m_unit_size s) (m_unit_count s) (m_buffer_head s + n)
                   (m_buffer_tail s) b (m_used_slots s + n).

(** The buffer after a successful [insert_units] that wrapped. *)
Definition inserted_wrapped (s : CircularBuffer) (b : BufferPtr) (n : Z)
  : CircularBuffer :=
  mkCircularBuffer (m_unit_size s) (m_unit_count s)
                   (n - (m_unit_count s - m_buffer_head s))
                   (m_buffer_tail s) b (m_used_slots s + n).

Inductive insert_path (s : CircularBuffer) (data : list Unit) (n : Z)
  : bool -> CircularBuffer -> Prop :=
| ins_disabled :
    m_unit_count s = 0 ->
    insert_path s data n false s
| ins_no_space :
    m_unit_count s <> 0 ->
    m_unit_count s - m_used_slots s < n ->
    insert_path s data n false s
| ins_collide_front :
    m_unit_count s <> 0 ->
    n <= m_unit_count s - m_used_slots s ->
    m_buffer_head s < m_buffer_tail s ->
    m_buffer_tail s - m_buffer_head s < n ->
    insert_path s data n false s
| ins_collide_wrap :
    m_unit_count s <> 0 ->
    n <= m_unit_count s - m_used_slots s ->
    m_buffer_tail s <= m_buffer_head s ->
    m_unit_count s - m_buffer_head s < n ->
    m_unit_count s - m_buffer_head s + (m_buffer_tail s - 1) < n ->
    insert_path s data n false s
| ins_block : forall b,
    m_unit_count s <> 0 ->
    n <= m_unit_count s - m_used_slots s ->
    (m_buffer_head s < m_buffer_tail s /\
       n <= m_buffer_tail s - m_buffer_head s) \/
    (m_buffer_tail s <= m_buffer_head s /\
       n <= m_unit_count s - m_buffer_head s) ->
    memcpy (m_buffer s) (get_buffer_head s) (Some data) 0
           (n * m_unit_size s) = Ok b ->
    insert_path s data n true (inserted s b n)
| ins_wrap : forall b1 b2,
    m_unit_count s <> 0 ->
    n <= m_unit_count s - m_used_slots s ->
    m_buffer_tail s <= m_buffer_head s ->
    m_unit_count s - m_buffer_head s < n ->
    n <= m_unit_count s - m_buffer_head s + (m_buffer_tail s - 1) ->
    memcpy (m_buffer s) (get_buffer_head s) (Some data) 0
           ((m_unit_count s - m_buffer_head s) * m_unit_size s) = Ok b1 ->
    memcpy b1 0 (Some data) (m_unit_count s - m_buffer_head s)
           ((n - (m_unit_count s - m_buffer_head s)) * m_unit_size s)
      = Ok b2 ->
    insert_path s data n true (inserted_wrapped s b2 n).

(** The buffer after a successful [extract_units] that read one block. *)
Definition extracted (s : CircularBuffer) (n : Z) : CircularBuffer :=
  mkCircularBuffer (m_unit_size s) (m_unit_count s) (m_buffer_head s)
                   (m_buffer_tail s + n) (m_buffer s) (m_used_slots s - n).

(** The buffer after a successful [extract_units] that wrapped. *)
Definition extracted_wrapped (s : CircularBuffer) (n : Z) : CircularBuffer :=
  mkCircularBuffer (m_unit_size s) (m_unit_count s) (m_buffer_head s)
                   (n - (m_unit_count s - m_buffer_tail s))
                   (m_buffer s) (m_used_slots s - n).

Inductive extract_path (s : CircularBuffer) (n : Z)
  : bool -> list Unit -> CircularBuffer -> Prop :=
| ext_disabled :
    m_unit_count s = 0 ->
    extract_path s n false [] s
| ext_no_data :
    m_unit_count s <> 0 ->
    m_used_slots s < n ->
    extract_path s n false [] s
| ext_should_not_happen :
    m_unit_count s <> 0 ->
    n <= m_used_slots s ->
    m_buffer_tail s <= m_buffer_head s ->
    m_buffer_head s - m_buffer_tail s < n ->
    extract_path s n false [] s
| ext_block : forall out,
    m_unit_count s <> 0 ->
    n <= m_used_slots s ->
    (m_buffer_head s < m_buffer_tail s /\
       n <= m_unit_count s - m_buffer_tail s) \/
    (m_buffer_tail s <= m_buffer_head s /\
       n <= m_buffer_head s - m_buffer_tail s) ->
    load (m_buffer s) (get_buffer_tail s) (n * m_unit_size s) = Ok out ->
    extract_path s n true out (extracted s n)
| ext_wrap : forall out1 out2,
    m_unit_count s <> 0 ->
    n <= m_used_slots s ->
    m_buffer_head s < m_buffer_tail s ->
    m_unit_count s - m_buffer_tail s < n ->
    load (m_buffer s) (get_buffer_tail s)
         ((m_unit_count s - m_buffer_tail s) * m_unit_size s) = Ok out1 ->
    load (m_buffer s) 0
         ((n - (m_unit_count s - m_buffer_tail s)) * m_unit_size s)
      = Ok out2 ->
    extract_path s n true (out1 ++ out2) (extracted_wrapped s n).

(** ** Well-formed buffers *)

(** The two ways the cursors and the counter fit together: the occupied
    units lie between tail and head, or they run from tail to the end of
    the array and go on from its start to head. *)
Definition cursors_ok (s : CircularBuffer) : Prop :=
  0 <= m_buffer_head s <= m_unit_count s /\
  0 <= m_buffer_tail s <= m_unit_count s /\
  ((m_buffer_tail s <= m_buffer_head s /\
      m_used_slots s = m_buffer_head s - m_buffer_tail s) \/
   (m_buffer_head s <= m_buffer_tail s /\
      m_used_slots s
      = m_unit_count s - m_buffer_tail s + m_buffer_head s)).

(** [patch l off us]: the array [l] with [us] written from element [off]
    on, as [store] leaves it. *)
Definition patch (l : list Unit) (off : Z) (us : list Unit) : list Unit :=
  take off l ++ us ++ drop (off + len us) l.

Definition storage (s : CircularBuffer) : list Unit :=
  match m_buffer s with
  | Some l => l
  | None => []
  end.

(** The occupied units, oldest first: [m_used_slots] units from the tail
    on, going round the end of the array. *)
Definition content (s : CircularBuffer) : list Unit :=
  take (m_used_slots s) (drop (m_buffer_tail s) (storage s ++ storage s)).

(** A buffer of one-byte units whose array and cursors fit together. *)
Definition represents (s : CircularBuffer) : Prop :=
  cursors_ok s /\
  m_unit_size s = 1 /\
  len (storage s) = m_unit_count s /\
  (m_unit_count s <> 0 -> m_buffer s = Some (storage s)).

End Buffer.

(** ** Instances and scenarios *)

(** [CircularBuffer<uint8_t>], the instance [main.cpp] uses.  The buffer
    never looks into a unit, so the units are kept as integers. *)
#[export] Instance uint8_t : UnitType Z :=
  {| sizeof := 1; sizeof_pos := eq_refl; indeterminate := 0 |}.

(** A unit type of two bytes. *)
Definition uint16_t : UnitType Z :=
  {| sizeof := 2; sizeof_pos := eq_refl; indeterminate := 0 |}.

(** Capacity 10 after [insert [1;2;3]], [insert [4;5;6;7;8]] and
    [extract 5]: three units held, seven free, two of them before the end
    of the array. *)
Definition three_of_ten : CircularBuffer :=
  mkCircularBuffer 1 10 8 5 (Some [1; 2; 3; 4; 5; 6; 7; 8; 0; 0]) 3.

Definition three_of_ten_calls : list call :=
  [Insert [1; 2; 3] 3; Insert [4; 5; 6; 7; 8] 5; Extract 5].

(** Capacity 4, full, with the cursors on the same slot in the middle of
    the array. *)
Definition full_of_four : CircularBuffer :=
  mkCircularBuffer 1 4 2 2 (Some [5; 6; 3; 4]) 4.

Definition full_of_four_calls : list call :=
  [Insert [1; 2; 3] 3; Extract 2; Insert [4; 5] 2; Insert [6] 1].

(** Capacity 4 after [insert [1;2]]. *)
Definition two_of_four : CircularBuffer :=
  mkCircularBuffer 1 4 2 0 (Some [1; 2; 0; 0]) 2.

Definition two_of_four_calls : list call := [Insert [1; 2] 2].

(** Capacity 4 after [insert [1;2;3;4]]. *)
Definition four_of_four : CircularBuffer :=
  mkCircularBuffer 1 4 4 0 (Some [1; 2; 3; 4]) 4.

Definition four_of_four_calls : list call := [Insert [1; 2; 3; 4] 4].

(** A new buffer of capacity 4. *)
Definition none_of_four : CircularBuffer :=
  mkCircularBuffer 1 4 0 0 (Some [0; 0; 0; 0]) 0.

(** [CircularBuffer<uint16_t>] of capacity 4 after [insert [1;2]]. *)
Definition two_of_four_wide : CircularBuffer :=
  mkCircularBuffer 2 4 2 0 (Some [1; 2; 0; 0]) 2.

(** [CircularBuffer<uint16_t>] of capacity 4 after [insert [1]] and
    [insert [2]]. *)
Definition one_and_one_wide : CircularBuffer :=
  mkCircularBuffer 2 4 2 0 (Some [1; 0; 2; 0]) 2.


(** Capacity 4 after [insert [1;2]] and [extract 2]: empty, the cursors
    in the middle of the array. *)
Definition emptied_of_four : CircularBuffer :=
  mkCircularBuffer 1 4 2 2 (Some [1; 2; 0; 0]) 0.

Definition emptied_of_four_calls : list call := [Insert [1; 2] 2; Extract 2].

(** Capacity 4 after [insert [1;2;3]], [extract 2] and [insert [4;5]]:
    three units held, from slot 2 over the end of the array to slot 0. *)
Definition wrapped_of_four : CircularBuffer :=
  mkCircularBuffer 1 4 1 2 (Some [5; 2; 3; 4]) 3.

Definition wrapped_of_four_calls : list call :=
  [Insert [1; 2; 3] 3; Extract 2; Insert [4; 5] 2].


Definition none_of_none : CircularBuffer (Unit := Z) :=
  mkCircularBuffer 1 0 0 0 None 0.

(** [CircularBuffer<uint16_t>] of capacity 4 after [insert [1]]. *)
Definition one_wide : CircularBuffer :=
  mkCircularBuffer 2 4 1 0 (Some [1; 0; 0; 0]) 1.

(** Capacity 4 after [insert [1;2]] and [extract 1]: one unit held. *)
Definition one_of_four : CircularBuffer :=
  mkCircularBuffer 1 4 2 1 (Some [1; 2; 0; 0]) 1.

Definition one_of_four_calls : list call := [Insert [1; 2] 2; Extract 1].

(** ** main.cpp: the checksum of the test driver

    [std::uint_fast32_t] is an unsigned type of [fast32_bits] bits, at
    least 32; its values are integers of [Z], and [~] is written out with
    its wrap-around.  Shifts to the right and exclusive or of values that
    fit the type need none. *)

Definition reversed_polynomial : Z := 0xEDB88320.

(** The body of the loop of [byte_checksum::operator()]. *)
Definition checksum_round (checksum : Z) : Z :=
  Z.lxor (Z.shiftr checksum 1)
         (if negb (Z.land checksum 1 =? 0) then reversed_polynomial else 0).

(** [byte_checksum::operator()] on the member [n]: the checksum it
    returns and the member after the call. *)
Definition byte_checksum (n : Z) : Z * Z :=
  let checksum := n in
  (Nat.iter 8 checksum_round checksum, n + 1).

(** [std::generate] over [count] elements with the function object in
    the state [n]. *)
Fixpoint generate (count : nat) (n : Z) : list Z :=
  match count with
  | O => []
  | S count =>
      let r := byte_checksum n in
      fst r :: generate count (snd r)
  end.

Definition generate_crc_lookup_table : list Z := generate 256 0.

(** The lambda of [crc]: one step of [std::accumulate]. *)
Definition crc_step (table : list Z) (checksum value : Z) : Z :=
  Z.lxor (nth (Z.to_nat (Z.land (Z.lxor checksum value) 0xFF)) table 0)
         (Z.shiftr checksum 8).

Section Crc.

Variable fast32_bits : Z.

(** [~x] on [std::uint_fast32_t]. *)
Definition complement (x : Z) : Z := Z.lnot x mod 2 ^ fast32_bits.

(** [crc(first, last)] over the values of the range. *)
Definition crc (values : list Z) : Z :=
  let table := generate_crc_lookup_table in
  Z.land 0xFFFFFFFF
         (complement
            (fold_left (crc_step table) values
                       (Z.land (complement 0) 0xFFFFFFFF))).

End Crc.

(** Whether no value occurs twice in a list. *)
Fixpoint distinct (l : list Z) : bool :=
  match l with
  | [] => true
  | x :: r => negb (existsb (Z.eqb x) r) && distinct r
  end.

(** * Properties

    ** Case analysis of the calls

    Each lemma lists the paths through a member function: which tests led
    to the result and what the resulting buffer is. *)

Ltac split_tests :=
  repeat match goal with
         | H : context [Z.eqb ?a ?b] |- _ => destruct (Z.eqb_spec a b)
         | H : context [Z.ltb ?a ?b] |- _ => destruct (Z.ltb_spec a b)
         | H : context [Z.leb ?a ?b] |- _ => destruct (Z.leb_spec a b)
         | H : context [Z.geb ?a ?b] |- _ =>
             rewrite (Z.geb_leb a b) in H
         | H : context [Z.gtb ?a ?b] |- _ =>
             rewrite (Z.gtb_ltb a b) in H
         end.

Lemma bind_Ok : forall (A B : Type) (r : result A) (k : A -> result B) b,
    bind r k = Ok b -> exists a, r = Ok a /\ k a = Ok b.
Proof.
  intros A B [a | f] k b H; simpl in H.
  - exists a. split; [reflexivity | exact H].
  - discriminate H.
Qed.

Section Facts.

Context {Unit : Type} {UT : UnitType Unit}.

Implicit Types (s this source : CircularBuffer (Unit := Unit)).
Implicit Types (l us data q out outs : list Unit).

Lemma insert_units_path : forall s data n ok s',
    insert_units s data n = Ok (ok, s') <-> insert_path s data n ok s'.
Proof.
  intros s data n ok s'. split.
  - unfold insert_units. intros H.
    split_tests;
      repeat (apply bind_Ok in H; destruct H as (? & ? & H));
      unfold get_buffer_head, set_head, set_used, set_buffer in *;
      simpl in *; inversion H; subst; clear H.
    all: try (apply ins_disabled; assumption).
    all: try (apply ins_no_space; assumption).
    all: try (apply ins_collide_front; assumption || lia).
    all: try (apply ins_collide_wrap; assumption || lia).
    all: try (eapply ins_block; [assumption | lia | lia | eassumption]).
    all: replace (m_used_slots s + (m_unit_count s - m_buffer_head s)
                  + (n - (m_unit_count s - m_buffer_head s)))
           with (m_used_slots s + n) by lia.
    all: replace (0 + (n - (m_unit_count s - m_buffer_head s)))
           with (n - (m_unit_count s - m_buffer_head s)) by lia.
    all: eapply ins_wrap; eauto; lia.
  - intros H. unfold insert_units.
    destruct H as [H0 | H0 H1 | H0 H1 H2 H3 | H0 H1 H2 H3 H4
                   | b H0 H1 H2 Hb | b1 b2 H0 H1 H2 H3 H4 Hb1 Hb2].
    + rewrite (proj2 (Z.eqb_eq _ _) H0). reflexivity.
    + rewrite (proj2 (Z.eqb_neq _ _) H0).
      rewrite (proj2 (Z.ltb_lt _ _) H1). reflexivity.
    + rewrite (proj2 (Z.eqb_neq _ _) H0).
      rewrite (proj2 (Z.ltb_ge _ _) H1).
      rewrite (proj2 (Z.ltb_lt _ _) H2).
      rewrite (proj2 (Z.ltb_lt _ _) H3). reflexivity.
    + rewrite (proj2 (Z.eqb_neq _ _) H0).
      rewrite (proj2 (Z.ltb_ge _ _) H1).
      rewrite (proj2 (Z.ltb_ge _ _) H2).
      rewrite Z.geb_leb, (proj2 (Z.leb_gt _ _) H3).
      rewrite (proj2 (Z.ltb_lt _ _) H4). reflexivity.
    + rewrite (proj2 (Z.eqb_neq _ _) H0).
      rewrite (proj2 (Z.ltb_ge _ _) H1).
      destruct H2 as [[H2 H3] | [H2 H3]].
      * rewrite (proj2 (Z.ltb_lt _ _) H2).
        rewrite (proj2 (Z.ltb_ge _ _) H3).
        rewrite Hb. reflexivity.
      * rewrite (proj2 (Z.ltb_ge _ _) H2).
        rewrite Z.geb_leb, (proj2 (Z.leb_le _ _) H3).
        rewrite Hb. reflexivity.
    + rewrite (proj2 (Z.eqb_neq _ _) H0).
      rewrite (proj2 (Z.ltb_ge _ _) H1).
      rewrite (proj2 (Z.ltb_ge _ _) H2).
      rewrite Z.geb_leb, (proj2 (Z.leb_gt _ _) H3).
      rewrite (proj2 (Z.ltb_ge _ _) H4).
      rewrite Hb1. simpl.
      unfold get_buffer_head, set_head, set_used, set_buffer. simpl.
      rewrite Hb2. simpl. unfold inserted_wrapped.
      do 3 f_equal. lia.
Qed.

Lemma extract_units_path : forall s n ok out s',
    extract_units s n = Ok (ok, out, s') <-> extract_path s n ok out s'.
Proof.
  intros s n ok out s'. split.
  - unfold extract_units. intros H.
    split_tests;
      repeat (apply bind_Ok in H; destruct H as (? & ? & H));
      unfold get_buffer_tail, set_tail, set_used in *;
      simpl in *; inversion H; subst; clear H.
    all: try (apply ext_disabled; assumption).
    all: try (apply ext_no_data; assumption).
    all: try (apply ext_should_not_happen; assumption || lia).
    all: try (eapply ext_block; [assumption | lia | lia | eassumption]).
    all: replace (m_used_slots s - (m_unit_count s - m_buffer_tail s)
                  - (n - (m_unit_count s - m_buffer_tail s)))
           with (m_used_slots s - n) by lia.
    all: replace (0 + (n - (m_unit_count s - m_buffer_tail s)))
           with (n - (m_unit_count s - m_buffer_tail s)) by lia.
    all: eapply ext_wrap; eauto; lia.
  - intros H. unfold extract_units.
    destruct H as [H0 | H0 H1 | H0 H1 H2 H3
                   | o H0 H1 H2 Ho | o1 o2 H0 H1 H2 H3 Ho1 Ho2].
    + rewrite (proj2 (Z.eqb_eq _ _) H0). reflexivity.
    + rewrite (proj2 (Z.eqb_neq _ _) H0).
      rewrite (proj2 (Z.ltb_lt _ _) H1). reflexivity.
    + rewrite (proj2 (Z.eqb_neq _ _) H0).
      rewrite (proj2 (Z.ltb_ge _ _) H1).
      rewrite (proj2 (Z.ltb_ge _ _) H2).
      rewrite (proj2 (Z.ltb_lt _ _) H3). reflexivity.
    + rewrite (proj2 (Z.eqb_neq _ _) H0).
      rewrite (proj2 (Z.ltb_ge _ _) H1).
      destruct H2 as [[H2 H3] | [H2 H3]].
      * rewrite (proj2 (Z.ltb_lt _ _) H2).
        rewrite (proj2 (Z.ltb_ge _ _) H3).
        rewrite Ho. reflexivity.
      * rewrite (proj2 (Z.ltb_ge _ _) H2).
        rewrite (proj2 (Z.ltb_ge _ _) H3).
        rewrite Ho. reflexivity.
    + rewrite (proj2 (Z.eqb_neq _ _) H0).
      rewrite (proj2 (Z.ltb_ge _ _) H1).
      rewrite (proj2 (Z.ltb_lt _ _) H2).
      rewrite (proj2 (Z.ltb_lt _ _) H3).
      rewrite Ho1. simpl.
      unfold get_buffer_tail, set_tail, set_used. simpl.
      rewrite Ho2. simpl. unfold extracted_wrapped.
      do 3 f_equal. lia.
Qed.

(** ** Rejected calls and frame properties *)

Lemma insert_units_false : forall s data n s',
    insert_units s data n = Ok (false, s') -> s' = s.
Proof.
  intros s data n s' H. apply insert_units_path in H.
  inversion H; reflexivity.
Qed.

Lemma extract_units_false : forall s n out s',
    extract_units s n = Ok (false, out, s') -> s' = s /\ out = [].
Proof.
  intros s n out s' H. apply extract_units_path in H.
  inversion H; split; reflexivity.
Qed.

Lemma insert_units_tail : forall s data n ok s',
    insert_units s data n = Ok (ok, s') ->
    m_buffer_tail s' = m_buffer_tail s.
Proof.
  intros s data n ok s' H. apply insert_units_path in H.
  destruct H; reflexivity.
Qed.

Lemma insert_units_fixed : forall s data n ok s',
    insert_units s data n = Ok (ok, s') ->
    m_unit_count s' = m_unit_count s /\ m_unit_size s' = m_unit_size s.
Proof.
  intros s data n ok s' H. apply insert_units_path in H.
  destruct H; split; reflexivity.
Qed.

Lemma extract_units_frame : forall s n ok out s',
    extract_units s n = Ok (ok, out, s') ->
    m_buffer_head s' = m_buffer_head s /\ m_buffer s' = m_buffer s.
Proof.
  intros s n ok out s' H. apply extract_units_path in H.
  destruct H; split; reflexivity.
Qed.

Lemma extract_units_fixed : forall s n ok out s',
    extract_units s n = Ok (ok, out, s') ->
    m_unit_count s' = m_unit_count s /\ m_unit_size s' = m_unit_size s.
Proof.
  intros s n ok out s' H. apply extract_units_path in H.
  destruct H; split; reflexivity.
Qed.

(** ** The cursors in reachable states *)

Lemma load_Ok_size : forall b off nbytes us,
    load b off nbytes = Ok us ->
    0 <= off /\ 0 <= nbytes.
Proof.
  intros [l |] off nbytes us H; simpl in H; [| discriminate].
  destruct (0 <=? off) eqn:E1; [| discriminate].
  destruct (0 <=? nbytes) eqn:E2; [| discriminate].
  split; apply Z.leb_le; assumption.
Qed.

Lemma memcpy_Ok_size : forall d doff b off nbytes d',
    memcpy d doff b off nbytes = Ok d' ->
    0 <= off /\ 0 <= nbytes.
Proof.
  intros d doff b off nbytes d' H. unfold memcpy in H.
  apply bind_Ok in H. destruct H as (us & H & _).
  eapply load_Ok_size; eassumption.
Qed.

Lemma scaled_nonneg : forall n usz, 0 < usz -> 0 <= n * usz -> 0 <= n.
Proof. intros n usz Hu H. nia. Qed.

Lemma insert_units_cursors : forall s data n ok s',
    0 < m_unit_size s ->
    cursors_ok s ->
    insert_units s data n = Ok (ok, s') ->
    cursors_ok s'.
Proof.
  intros s data n ok s' Hu Hc H. apply insert_units_path in H.
  destruct H as [| | | | b H0 H1 H2 Hb | b1 b2 H0 H1 H2 H3 H4 Hb1 Hb2];
    try assumption.
  - apply memcpy_Ok_size in Hb. destruct Hb as [_ Hb].
    apply scaled_nonneg in Hb; [| assumption].
    unfold cursors_ok in *; simpl. lia.
  - apply memcpy_Ok_size in Hb1. destruct Hb1 as [_ Hb1].
    apply scaled_nonneg in Hb1; [| assumption].
    unfold cursors_ok in *; simpl. lia.
Qed.

Lemma extract_units_cursors : forall s n ok out s',
    0 < m_unit_size s ->
    cursors_ok s ->
    extract_units s n = Ok (ok, out, s') ->
    cursors_ok s'.
Proof.
  intros s n ok out s' Hu Hc H. apply extract_units_path in H.
  destruct H as [| | | o H0 H1 H2 Ho | o1 o2 H0 H1 H2 H3 Ho1 Ho2];
    try assumption.
  - apply load_Ok_size in Ho. destruct Ho as [_ Ho].
    apply scaled_nonneg in Ho; [| assumption].
    unfold cursors_ok in *; simpl. lia.
  - apply load_Ok_size in Ho1. destruct Ho1 as [_ Ho1].
    apply scaled_nonneg in Ho1; [| assumption].
    unfold cursors_ok in *; simpl. lia.
Qed.

Lemma construct_Ok : forall unit_count s,
    construct unit_count = Ok s ->
    0 <= unit_count /\
    s = mkCircularBuffer sizeof unit_count 0 0
          (if unit_count =? 0 then None
           else Some (repeat indeterminate (Z.to_nat unit_count))) 0.
Proof.
  intros c s H. unfold construct in H.
  destruct (Z.ltb_spec c 0); [discriminate |].
  inversion H. split; [assumption | reflexivity].
Qed.

Lemma history_cursors : forall s q,
    history s q ->
    m_unit_size s = sizeof /\ cursors_ok s.
Proof.
  intros s q H. pose proof sizeof_pos as Hpos. induction H as
      [c s Hc | s q data n ok s' Hh IH Hi | s q n ok out s' Hh IH He].
  - apply construct_Ok in Hc. destruct Hc as [Hc ->].
    unfold cursors_ok; simpl. split; [reflexivity | lia].
  - destruct IH as [IH1 IH2]. split.
    + apply insert_units_fixed in Hi. destruct Hi as [_ ->]. exact IH1.
    + eapply insert_units_cursors; [| exact IH2 | exact Hi]. lia.
  - destruct IH as [IH1 IH2]. split.
    + apply extract_units_fixed in He. destruct He as [_ ->]. exact IH1.
    + eapply extract_units_cursors; [| exact IH2 | exact He]. lia.
Qed.

(** ** Slices of arrays *)

Lemma len_nonneg : forall l, 0 <= len l.
Proof. intros l. unfold len. lia. Qed.

Lemma len_app : forall l1 l2, len (l1 ++ l2) = len l1 + len l2.
Proof. intros l1 l2. unfold len. rewrite length_app. lia. Qed.

Lemma len_take : forall n l, 0 <= n <= len l -> len (take n l) = n.
Proof.
  intros n l H. unfold len, take in *. rewrite length_firstn. lia.
Qed.

Lemma len_drop : forall n l, 0 <= n <= len l -> len (drop n l) = len l - n.
Proof.
  intros n l H. unfold len, drop in *. rewrite length_skipn. lia.
Qed.

Lemma len_repeat : forall (x : Unit) n,
    0 <= n -> len (repeat x (Z.to_nat n)) = n.
Proof. intros x n H. unfold len. rewrite repeat_length. lia. Qed.

Lemma take_0 : forall l, take 0 l = [].
Proof. intros l. reflexivity. Qed.

Lemma drop_0 : forall l, drop 0 l = l.
Proof. intros l. reflexivity. Qed.

Lemma take_all : forall n l, len l <= n -> take n l = l.
Proof.
  intros n l H. unfold take, len in *. apply firstn_all2. lia.
Qed.

Lemma drop_all : forall n l, len l <= n -> drop n l = [].
Proof.
  intros n l H. unfold drop, len in *. apply skipn_all2. lia.
Qed.

Lemma take_drop : forall n l, take n l ++ drop n l = l.
Proof. intros n l. apply firstn_skipn. Qed.

Lemma take_app_l : forall n l1 l2,
    n <= len l1 -> take n (l1 ++ l2) = take n l1.
Proof.
  intros n l1 l2 H. unfold take, len in *. rewrite firstn_app.
  replace (Z.to_nat n - length l1)%nat with 0%nat by lia.
  rewrite firstn_0. apply app_nil_r.
Qed.

Lemma take_app_r : forall n l1 l2,
    len l1 <= n -> take n (l1 ++ l2) = l1 ++ take (n - len l1) l2.
Proof.
  intros n l1 l2 H. unfold take, len in *. rewrite firstn_app.
  rewrite firstn_all2 by lia. f_equal. f_equal. lia.
Qed.

Lemma drop_app_l : forall n l1 l2,
    n <= len l1 -> drop n (l1 ++ l2) = drop n l1 ++ l2.
Proof.
  intros n l1 l2 H. unfold drop, len in *. rewrite skipn_app.
  replace (Z.to_nat n - length l1)%nat with 0%nat by lia.
  reflexivity.
Qed.

Lemma drop_app_r : forall n l1 l2,
    len l1 <= n -> drop n (l1 ++ l2) = drop (n - len l1) l2.
Proof.
  intros n l1 l2 H. unfold drop, len in *. rewrite skipn_app.
  rewrite skipn_all2 by lia. simpl. f_equal. lia.
Qed.

Lemma take_take : forall n m l, n <= m -> take n (take m l) = take n l.
Proof.
  intros n m l H. unfold take. rewrite firstn_firstn. f_equal. lia.
Qed.

Lemma drop_drop : forall a b l,
    0 <= a -> 0 <= b -> drop a (drop b l) = drop (a + b) l.
Proof.
  intros a b l Ha Hb. unfold drop. rewrite skipn_skipn. f_equal. lia.
Qed.

Lemma drop_take : forall a b l,
    0 <= a -> a <= b -> drop a (take b l) = take (b - a) (drop a l).
Proof.
  intros a b l Ha Hb. unfold drop, take. rewrite skipn_firstn_comm.
  f_equal. lia.
Qed.

Lemma take_plus : forall a b l,
    0 <= a -> 0 <= b -> take (a + b) l = take a l ++ take b (drop a l).
Proof.
  intros a b l Ha Hb.
  rewrite <- (take_drop a l) at 1.
  destruct (Z.le_gt_cases a (len l)) as [H | H].
  - rewrite take_app_r by (rewrite len_take; lia).
    rewrite len_take by lia. f_equal. f_equal. lia.
  - rewrite (take_all a l) by lia. rewrite (drop_all a l) by lia.
    rewrite app_nil_r. rewrite take_all by lia.
    unfold take. rewrite firstn_nil. symmetry. apply app_nil_r.
Qed.

Lemma len_patch : forall l off us,
    0 <= off -> off + len us <= len l -> len (patch l off us) = len l.
Proof.
  intros l off us H0 H1. pose proof (len_nonneg us). unfold patch.
  rewrite !len_app, len_take, len_drop by lia. lia.
Qed.

Lemma patch_nil : forall l off, patch l off [] = l.
Proof.
  intros l off. unfold patch. simpl. change (len []) with 0.
  rewrite Z.add_0_r. apply take_drop.
Qed.

Lemma take_patch_upto : forall l off us,
    0 <= off -> off + len us <= len l ->
    take (off + len us) (patch l off us) = take off l ++ us.
Proof.
  intros l off us H0 H1. pose proof (len_nonneg us). unfold patch.
  rewrite take_app_r by (rewrite len_take; lia).
  rewrite len_take by lia. f_equal.
  rewrite take_app_l by lia. apply take_all. lia.
Qed.

Lemma drop_patch_after : forall l off us k,
    0 <= off -> off + len us <= k ->
    off + len us <= len l ->
    drop k (patch l off us) = drop k l.
Proof.
  intros l off us k H0 H1 H2. pose proof (len_nonneg us). unfold patch.
  rewrite drop_app_r by (rewrite len_take; lia).
  rewrite len_take by lia.
  rewrite drop_app_r by lia.
  rewrite drop_drop by lia. f_equal. lia.
Qed.

Lemma window_linear : forall l t h,
    0 <= t -> t <= h -> h <= len l ->
    take (h - t) (drop t (l ++ l)) = drop t (take h l).
Proof.
  intros l t h H0 H1 H2.
  rewrite drop_app_l by lia.
  rewrite take_app_l by (rewrite len_drop; lia).
  symmetry. apply drop_take; lia.
Qed.

Lemma window_wrapped : forall l t h,
    0 <= h -> h <= t -> t <= len l ->
    take (len l - t + h) (drop t (l ++ l)) = drop t l ++ take h l.
Proof.
  intros l t h H0 H1 H2.
  rewrite drop_app_l by lia.
  rewrite take_app_r by (rewrite len_drop; lia).
  rewrite len_drop by lia. f_equal. f_equal. lia.
Qed.

Lemma content_linear : forall s,
    represents s ->
    m_buffer_tail s <= m_buffer_head s ->
    m_used_slots s = m_buffer_head s - m_buffer_tail s ->
    content s = drop (m_buffer_tail s) (take (m_buffer_head s) (storage s)).
Proof.
  intros s (Hc & _ & Hl & _) Ht Hu. unfold content, cursors_ok in *.
  rewrite Hu. apply window_linear; lia.
Qed.

Lemma content_wrapped : forall s,
    represents s ->
    m_buffer_head s <= m_buffer_tail s ->
    m_used_slots s = m_unit_count s - m_buffer_tail s + m_buffer_head s ->
    content s = drop (m_buffer_tail s) (storage s)
                  ++ take (m_buffer_head s) (storage s).
Proof.
  intros s (Hc & _ & Hl & _) Ht Hu. unfold content, cursors_ok in *.
  rewrite Hu, <- Hl. apply window_wrapped; lia.
Qed.

(** ** Replayed calls are histories *)

Lemma replay_history : forall calls s q s' q',
    history s q ->
    replay s q calls = Ok (s', q') ->
    history s' q'.
Proof.
  induction calls as [| [data n | n] calls IH]; intros s q s' q' Hh Hr;
    simpl in Hr.
  - inversion Hr; subst. exact Hh.
  - apply bind_Ok in Hr. destruct Hr as ([ok s1] & Hi & Hr).
    simpl in Hr. eapply IH; [| exact Hr].
    exact (hist_insert s q data n ok s1 Hh Hi).
  - apply bind_Ok in Hr. destruct Hr as ([[ok out] s1] & He & Hr).
    simpl in Hr. eapply IH; [| exact Hr].
    exact (hist_extract s q n ok out s1 Hh He).
Qed.

Lemma run_history : forall unit_count calls s q,
    run unit_count calls = Ok (s, q) ->
    history s q.
Proof.
  intros c calls s q H. unfold run in H.
  apply bind_Ok in H. destruct H as (s0 & Hc & Hr).
  eapply replay_history; [| exact Hr].
  exact (hist_new c s0 Hc).
Qed.

(** ** After reset *)

Lemma extract_after_reset : forall s n,
    0 < n ->
    extract_units (reset s) n = Ok (false, [], reset s).
Proof.
  intros s n Hn. apply extract_units_path.
  destruct (Z.eq_dec (m_unit_count s) 0) as [E0 | E0].
  { now apply ext_disabled. }
  destruct (Z.lt_ge_cases (m_used_slots s) n) as [E1 | E1].
  { now apply ext_no_data. }
  apply ext_should_not_happen; simpl; try assumption; lia.
Qed.

(** ** Copy construction *)

Lemma copy_construct_faults : forall source,
    m_buffer_head source <> m_buffer_tail source ->
    m_unit_size source <> 0 ->
    0 < m_unit_count source ->
    copy_construct source = Fault AssertionFailed.
Proof.
  intros src Hne Hu Hc. unfold copy_construct, transfer; simpl.
  rewrite (proj2 (Z.eqb_neq _ _) Hne).
  rewrite (proj2 (Z.eqb_neq _ _) Hu).
  rewrite (proj2 (Z.leb_gt _ _) Hc). reflexivity.
Qed.

(** ** The claims that hold for every unit type *)

(** C6, as amended.  In every state reached from a constructed buffer of
    capacity > 0 by calls of [insert_units] and [extract_units], both
    cursors lie between 0 and the capacity, the capacity included: a
    cursor that has reached the end of the array stays there until the
    next call wraps it. *)
Theorem cursors_within_capacity : forall s,
    reachable s ->
    0 < m_unit_count s ->
    0 <= m_buffer_head s <= m_unit_count s /\
    0 <= m_buffer_tail s <= m_unit_count s.
Proof.
  intros s [q Hh] _. apply history_cursors in Hh.
  destruct Hh as [_ (Hhead & Htail & _)]. split; assumption.
Qed.

(** C7.  Failure atomicity: a call of [insert_units] or [extract_units]
    that returns false, on whichever of its rejection paths, leaves the
    buffer as it was: head, tail, used count and stored units. *)
Theorem failure_atomicity : forall s data n out s',
    insert_units s data n = Ok (false, s') \/
    extract_units s n = Ok (false, out, s') ->
    s' = s.
Proof.
  intros s data n out s' [H | H].
  - eapply insert_units_false; eassumption.
  - apply extract_units_false in H. apply H.
Qed.

(** C8.  Frame conditions: [insert_units] never changes the tail, and
    [extract_units] never changes the head or the stored units, whatever
    they return. *)
Theorem frame_conditions : forall s data n ok s1 m ok' out s2,
    (insert_units s data n = Ok (ok, s1) ->
     m_buffer_tail s1 = m_buffer_tail s) /\
    (extract_units s m = Ok (ok', out, s2) ->
     m_buffer_head s2 = m_buffer_head s /\ m_buffer s2 = m_buffer s).
Proof.
  intros s data n ok s1 m ok' out s2. split; intros H.
  - eapply insert_units_tail; eassumption.
  - eapply extract_units_frame; eassumption.
Qed.

(** C9.  When the head of the source equals its tail, which an empty
    source and a full one both can have, copy assignment returns the
    destination as it was (storage, head, tail and used count), and copy
    construction returns the default-initialised members. *)
Theorem transfer_head_eq_tail : forall this source,
    m_buffer_head source = m_buffer_tail source ->
    copy_assign this source = Ok this /\
    copy_construct source = Ok default_members.
Proof.
  intros this source H. unfold copy_construct, copy_assign, transfer.
  rewrite (proj2 (Z.eqb_eq _ _) H). split; reflexivity.
Qed.

(** ** memcpy on one-byte units *)

Section Bytes.

Hypothesis sizeof_byte : sizeof = 1.

Lemma load_bytes : forall l off n us,
    load (Some l) off (n * 1) = Ok us ->
    0 <= off /\ 0 <= n /\ off + n <= len l /\
    us = take n (drop off l) /\ len us = n.
Proof.
  intros l off n us H. unfold load in H.
  rewrite sizeof_byte, Z.mul_1_r, Z.div_1_r in H.
  destruct (Z.leb_spec 0 off); [| discriminate].
  destruct (Z.leb_spec 0 n); [| discriminate].
  destruct (Z.leb_spec (off + n) (len l)); [| discriminate].
  simpl in H. inversion H; subst.
  repeat split; try assumption.
  rewrite len_take; [reflexivity |]. rewrite len_drop; lia.
Qed.

Lemma load_bytes_Ok : forall l off n,
    0 <= off -> 0 <= n -> off + n <= len l ->
    load (Some l) off (n * 1) = Ok (take n (drop off l)).
Proof.
  intros l off n H0 H1 H2. unfold load.
  rewrite sizeof_byte, Z.mul_1_r, Z.div_1_r.
  rewrite (proj2 (Z.leb_le _ _) H0), (proj2 (Z.leb_le _ _) H1),
    (proj2 (Z.leb_le _ _) H2). reflexivity.
Qed.

Lemma memcpy_bytes : forall d doff src soff n b,
    memcpy (Some d) doff (Some src) soff (n * 1) = Ok b ->
    0 <= soff /\ 0 <= n /\ soff + n <= len src /\
    0 <= doff /\ doff + n <= len d /\
    b = Some (patch d doff (take n (drop soff src))) /\
    len (take n (drop soff src)) = n.
Proof.
  intros d doff src soff n b H. unfold memcpy in H.
  apply bind_Ok in H. destruct H as (us & Hl & Hs).
  apply load_bytes in Hl. destruct Hl as (H0 & H1 & H2 & -> & H3).
  unfold store in Hs. rewrite H3 in Hs.
  destruct (Z.leb_spec 0 doff); [| discriminate].
  destruct (Z.leb_spec (doff + n) (len d)); [| discriminate].
  simpl in Hs. inversion Hs; subst.
  repeat split; try assumption.
  unfold patch. rewrite H3. reflexivity.
Qed.

Lemma memcpy_bytes_Ok : forall d doff src soff n,
    0 <= soff -> 0 <= n -> soff + n <= len src ->
    0 <= doff -> doff + n <= len d ->
    memcpy (Some d) doff (Some src) soff (n * 1)
    = Ok (Some (patch d doff (take n (drop soff src)))).
Proof.
  intros d doff src soff n H0 H1 H2 H3 H4. unfold memcpy.
  rewrite load_bytes_Ok by assumption. simpl.
  assert (Hn : len (take n (drop soff src)) = n).
  { rewrite len_take; [reflexivity |]. rewrite len_drop; lia. }
  unfold patch. rewrite Hn.
  rewrite (proj2 (Z.leb_le _ _) H3), (proj2 (Z.leb_le _ _) H4).
  reflexivity.
Qed.

Lemma insert_units_represents : forall s data n s',
    represents s ->
    insert_units s data n = Ok (true, s') ->
    represents s' /\ content s' = content s ++ take n data.
Proof.
  intros s data n s' Hr H. apply insert_units_path in H.
  pose proof (content_linear s Hr) as Clin.
  pose proof (content_wrapped s Hr) as Cwrap.
  destruct Hr as (Hc & Hu & Hl & Hb).
  inversion H as [| | | | b H0 H1 H2 Hm | b1 b2 H0 H1 H2 H3 H4 Hm1 Hm2];
    subst; clear H.
  - (* one block *)
    unfold get_buffer_head in Hm. rewrite Hb, Hu in Hm by assumption.
    apply memcpy_bytes in Hm.
    destruct Hm as (_ & Hn & Hd & _ & Hfit & -> & Hlen).
    rewrite Z.mul_1_r in *. rewrite drop_0 in *.
    set (st := storage s) in *. set (us := take n data) in *.
    assert (Hp : len (patch st (m_buffer_head s) us) = m_unit_count s).
    { rewrite len_patch; unfold cursors_ok in Hc; lia. }
    assert (Hr' : represents (inserted s (Some (patch st (m_buffer_head s) us)) n)).
    { unfold represents, cursors_ok in *; simpl.
      repeat split; try lia; try assumption. }
    split; [exact Hr' |].
    unfold cursors_ok in Hc.
    destruct H2 as [[Hlt Hle] | [Hge Hle]].
    + (* head < tail: the free units lie between head and tail *)
      rewrite Cwrap by lia.
      rewrite (content_wrapped _ Hr') by (simpl; lia).
      simpl. unfold storage; simpl. fold st.
      rewrite drop_patch_after by lia.
      rewrite <- Hlen at 1. rewrite take_patch_upto by lia.
      rewrite app_assoc. reflexivity.
    + destruct (Z.eq_dec n 0) as [-> | Hn0].
      * (* nothing to copy *)
        assert (Hus : us = []).
        { unfold us. reflexivity. }
        rewrite Hus, app_nil_r. unfold content; simpl.
        unfold storage at 1 2; simpl. rewrite patch_nil.
        rewrite Z.add_0_r. reflexivity.
      * rewrite Clin by lia.
        rewrite (content_linear _ Hr') by (simpl; lia).
        simpl. unfold storage; simpl. fold st.
        rewrite <- Hlen at 1. rewrite take_patch_upto by lia.
        rewrite drop_app_l by (rewrite len_take; lia).
        reflexivity.
  - (* two blocks *)
    unfold get_buffer_head in Hm1. rewrite Hb, Hu in Hm1 by assumption.
    apply memcpy_bytes in Hm1.
    destruct Hm1 as (_ & Hn1 & Hd1 & _ & Hfit1 & -> & Hlen1).
    rewrite Hu in Hm2. apply memcpy_bytes in Hm2.
    destruct Hm2 as (_ & Hn2 & Hd2 & _ & Hfit2 & -> & Hlen2).
    rewrite Z.mul_1_r in *. rewrite drop_0 in *.
    set (st := storage s) in *.
    set (left_in_buffer := m_unit_count s - m_buffer_head s) in *.
    set (us1 := take left_in_buffer data) in *.
    set (us2 := take (n - left_in_buffer) (drop left_in_buffer data)) in *.
    unfold cursors_ok in Hc.
    assert (Hp1 : len (patch st (m_buffer_head s) us1) = m_unit_count s).
    { rewrite len_patch; lia. }
    assert (Hp2 : len (patch (patch st (m_buffer_head s) us1) 0 us2)
                  = m_unit_count s).
    { rewrite len_patch; lia. }
    assert (Hr' : represents
                    (inserted_wrapped s
                       (Some (patch (patch st (m_buffer_head s) us1) 0 us2))
                       n)).
    { unfold represents, cursors_ok; simpl. fold left_in_buffer.
      repeat split; try lia; try assumption. }
    split; [exact Hr' |].
    rewrite Clin by lia.
    rewrite (content_wrapped _ Hr') by (simpl; lia).
    simpl. unfold storage; simpl. fold st. fold left_in_buffer.
    rewrite drop_patch_after by lia.
    assert (E1 : patch st (m_buffer_head s) us1
                 = take (m_buffer_head s) st ++ us1).
    { rewrite <- take_patch_upto by lia. symmetry. apply take_all. lia. }
    rewrite E1.
    rewrite drop_app_l by (rewrite len_take; lia).
    rewrite <- E1.
    replace (n - left_in_buffer) with (0 + len us2) at 1 by lia.
    rewrite take_patch_upto by lia. rewrite take_0. simpl.
    rewrite <- app_assoc. f_equal.
    replace (take n data)
      with (take (left_in_buffer + (n - left_in_buffer)) data)
      by (f_equal; lia).
    rewrite take_plus by lia. reflexivity.
Qed.

Lemma extract_units_represents : forall s n out s',
    represents s ->
    extract_units s n = Ok (true, out, s') ->
    represents s' /\ out = take n (content s) /\
    content s' = drop n (content s).
Proof.
  intros s n out s' Hr H. apply extract_units_path in H.
  pose proof (content_linear s Hr) as Clin.
  pose proof (content_wrapped s Hr) as Cwrap.
  destruct Hr as (Hc & Hu & Hl & Hb).
  inversion H as [| | | o H0 H1 H2 Ho | o1 o2 H0 H1 H2 H3 Ho1 Ho2];
    subst; clear H.
  - (* one block *)
    unfold get_buffer_tail in Ho. rewrite Hb, Hu in Ho by assumption.
    apply load_bytes in Ho. destruct Ho as (_ & Hn & Hfit & -> & Hlen).
    rewrite Z.mul_1_r in *.
    set (st := storage s) in *.
    unfold cursors_ok in Hc.
    assert (Hr' : represents (extracted s n)).
    { unfold represents, cursors_ok; simpl.
      repeat split; try lia; try assumption. }
    split; [exact Hr' |].
    destruct H2 as [[Hlt Hle] | [Hge Hle]].
    + rewrite Cwrap by lia.
      rewrite (content_wrapped _ Hr') by (simpl; lia).
      change (storage (extracted s n)) with st. simpl.
      rewrite take_app_l by (rewrite len_drop; lia).
      rewrite drop_app_l by (rewrite len_drop; lia).
      rewrite drop_drop by lia.
      rewrite (Z.add_comm n). split; reflexivity.
    + destruct (Z.eq_dec n 0) as [-> | Hn0].
      * rewrite take_0, drop_0. unfold content; simpl.
        unfold storage; simpl. rewrite Z.add_0_r, Z.sub_0_r.
        split; reflexivity.
      * rewrite Clin by lia.
        rewrite (content_linear _ Hr') by (simpl; lia).
        change (storage (extracted s n)) with st. simpl.
        rewrite (drop_take (m_buffer_tail s)) by lia.
        rewrite take_take by lia.
        rewrite (drop_take (m_buffer_tail s + n)) by lia.
        rewrite (drop_take n) by lia.
        rewrite drop_drop by lia.
        rewrite (Z.add_comm n). split; [reflexivity |].
        f_equal. lia.
  - (* two blocks *)
    unfold get_buffer_tail in Ho1. rewrite Hb, Hu in Ho1, Ho2 by assumption.
    apply load_bytes in Ho1. destruct Ho1 as (_ & Hn1 & Hfit1 & -> & Hlen1).
    apply load_bytes in Ho2. destruct Ho2 as (_ & Hn2 & Hfit2 & -> & Hlen2).
    rewrite Z.mul_1_r in *. rewrite drop_0 in *.
    set (st := storage s) in *.
    set (data_count := m_unit_count s - m_buffer_tail s) in *.
    unfold cursors_ok in Hc.
    assert (Hr' : represents (extracted_wrapped s n)).
    { unfold represents, cursors_ok; simpl. fold data_count.
      repeat split; try lia; try assumption. }
    split; [exact Hr' |].
    rewrite Cwrap by lia.
    rewrite (content_linear _ Hr') by (simpl; lia).
    change (storage (extracted_wrapped s n)) with st. simpl.
    fold data_count.
    assert (Hd : len (drop (m_buffer_tail s) st) = data_count).
    { rewrite len_drop; lia. }
    rewrite take_app_r by lia.
    rewrite drop_app_r by lia.
    rewrite Hd.
    rewrite (take_all data_count) by lia.
    rewrite take_take by lia.
    split; reflexivity.
Qed.

Lemma construct_represents : forall unit_count s,
    construct unit_count = Ok s ->
    represents s /\ content s = [].
Proof.
  intros c s H. apply construct_Ok in H. destruct H as [Hc ->].
  split; [| reflexivity].
  unfold represents, cursors_ok, storage; simpl.
  repeat split; try lia; try assumption.
  - destruct (Z.eqb_spec c 0) as [-> | Hne]; [reflexivity |].
    apply len_repeat. assumption.
  - intros Hne. destruct (Z.eqb_spec c 0); [contradiction | reflexivity].
Qed.

Lemma history_represents : forall s q,
    history s q -> represents s /\ content s = q.
Proof.
  intros s q H. induction H as
      [c s Hc | s q data n ok s' Hh IH Hi | s q n ok out s' Hh IH He].
  - eapply construct_represents; eassumption.
  - destruct IH as [IH1 IH2]. destruct ok.
    + apply insert_units_represents in Hi; [| assumption].
      destruct Hi as [Hr Hq]. split; [assumption | congruence].
    + apply insert_units_false in Hi. subst s'. split; assumption.
  - destruct IH as [IH1 IH2]. destruct ok.
    + apply extract_units_represents in He; [| assumption].
      destruct He as (Hr & _ & Hq). split; [assumption | congruence].
    + apply extract_units_false in He. destruct He as [-> _].
      split; assumption.
Qed.

Lemma represents_len_content : forall s,
    represents s -> len (content s) = m_used_slots s.
Proof.
  intros s (Hc & _ & Hl & _). unfold content, cursors_ok in *.
  rewrite len_take; [reflexivity |].
  rewrite len_drop; rewrite len_app; lia.
Qed.

(** A call on a well-formed buffer of bytes always returns: nothing in
    it is undefined, as long as the caller's array holds the units it
    announces. *)
Lemma insert_units_returns : forall s data n,
    represents s -> 0 <= n <= len data ->
    exists ok s', insert_units s data n = Ok (ok, s').
Proof.
  intros s data n (Hc & Hu & Hl & Hb) Hn. unfold cursors_ok in Hc.
  destruct (Z.eq_dec (m_unit_count s) 0) as [E0 | E0].
  { exists false, s. apply insert_units_path. now apply ins_disabled. }
  destruct (Z.lt_ge_cases (m_unit_count s - m_used_slots s) n) as [E1 | E1].
  { exists false, s. apply insert_units_path. now apply ins_no_space. }
  assert (Hblock : forall k, 0 <= k -> k <= n ->
             m_buffer_head s + k <= m_unit_count s ->
             memcpy (m_buffer s) (get_buffer_head s) (Some data) 0
                    (k * m_unit_size s)
             = Ok (Some (patch (storage s) (m_buffer_head s)
                               (take k (drop 0 data))))).
  { intros k Hk0 Hk1 Hk2. unfold get_buffer_head.
    rewrite Hb, Hu by assumption.
    rewrite memcpy_bytes_Ok by lia. rewrite Z.mul_1_r. reflexivity. }
  destruct (Z.lt_ge_cases (m_buffer_head s) (m_buffer_tail s)) as [E2 | E2].
  { destruct (Z.lt_ge_cases (m_buffer_tail s - m_buffer_head s) n)
      as [E3 | E3].
    - exists false, s. apply insert_units_path.
      now apply ins_collide_front.
    - eexists true, _. apply insert_units_path.
      eapply ins_block; [assumption | lia | left; lia |].
      apply Hblock; lia. }
  destruct (Z.lt_ge_cases (m_unit_count s - m_buffer_head s) n) as [E3 | E3].
  - destruct (Z.lt_ge_cases
                (m_unit_count s - m_buffer_head s + (m_buffer_tail s - 1)) n)
      as [E4 | E4].
    + exists false, s. apply insert_units_path.
      now apply ins_collide_wrap.
    + eexists true, _. apply insert_units_path.
      eapply ins_wrap; try assumption; try lia.
      * apply Hblock; lia.
      * rewrite Hu. apply memcpy_bytes_Ok; try lia.
        rewrite len_patch; [lia | lia |].
        rewrite len_take; [lia |]. rewrite drop_0. lia.
  - eexists true, _. apply insert_units_path.
    eapply ins_block; [assumption | lia | right; lia |].
    apply Hblock; lia.
Qed.

Lemma extract_units_returns : forall s n,
    represents s -> 0 <= n ->
    exists ok out s', extract_units s n = Ok (ok, out, s').
Proof.
  intros s n (Hc & Hu & Hl & Hb) Hn. unfold cursors_ok in Hc.
  destruct (Z.eq_dec (m_unit_count s) 0) as [E0 | E0].
  { exists false, [], s. apply extract_units_path. now apply ext_disabled. }
  destruct (Z.lt_ge_cases (m_used_slots s) n) as [E1 | E1].
  { exists false, [], s. apply extract_units_path. now apply ext_no_data. }
  assert (Hblock : forall off k, 0 <= off -> 0 <= k ->
             off + k <= m_unit_count s ->
             load (m_buffer s) (off * m_unit_size s) (k * m_unit_size s)
             = Ok (take k (drop (off * 1) (storage s)))).
  { intros off k Ho Hk0 Hk1.
    rewrite Hb, Hu by assumption. apply load_bytes_Ok; lia. }
  destruct (Z.lt_ge_cases (m_buffer_head s) (m_buffer_tail s)) as [E2 | E2].
  { destruct (Z.lt_ge_cases (m_unit_count s - m_buffer_tail s) n)
      as [E3 | E3].
    - eexists true, _, _. apply extract_units_path.
      eapply ext_wrap; try assumption.
      + apply Hblock; lia.
      + apply (Hblock 0); lia.
    - eexists true, _, _. apply extract_units_path.
      eapply ext_block; [assumption | lia | left; lia |].
      apply Hblock; lia. }
  destruct (Z.lt_ge_cases (m_buffer_head s - m_buffer_tail s) n) as [E3 | E3].
  - exists false, [], s. apply extract_units_path.
    now apply ext_should_not_happen.
  - eexists true, _, _. apply extract_units_path.
    eapply ext_block; [assumption | lia | right; lia |].
    apply Hblock; lia.
Qed.

(** When a call is accepted, on a reachable buffer of bytes. *)
Lemma insert_units_accepts : forall s data n,
    represents s -> 0 <= n <= len data ->
    (exists s', insert_units s data n = Ok (true, s')) <->
    (m_unit_count s <> 0 /\
     n <= m_unit_count s - m_used_slots s /\
     ~ (m_buffer_tail s <= m_buffer_head s /\
        m_unit_count s - m_buffer_head s < n /\
        n = m_unit_count s - m_used_slots s)).
Proof.
  intros s data n Hr Hn.
  destruct (insert_units_returns s data n Hr Hn) as (ok & s1 & Hi).
  destruct Hr as (Hc & _). unfold cursors_ok in Hc.
  pose proof Hi as Hp. apply insert_units_path in Hp.
  split.
  - intros (s' & Hi'). rewrite Hi' in Hi. inversion Hi; subst ok s1.
    inversion Hp; subst; repeat split; try assumption; lia.
  - intros (H0 & H1 & H2). destruct ok; [exists s1; assumption |].
    exfalso. inversion Hp; subst; try contradiction; lia.
Qed.

Lemma extract_units_grants : forall s n,
    represents s -> 0 <= n ->
    (exists out s', extract_units s n = Ok (true, out, s')) <->
    (m_unit_count s <> 0 /\
     n <= m_used_slots s /\
     ~ (m_buffer_head s = m_buffer_tail s /\
        m_used_slots s = m_unit_count s /\ 0 < n)).
Proof.
  intros s n Hr Hn.
  destruct (extract_units_returns s n Hr Hn) as (ok & out1 & s1 & He).
  destruct Hr as (Hc & _). unfold cursors_ok in Hc.
  pose proof He as Hp. apply extract_units_path in Hp.
  split.
  - intros (out & s' & He'). rewrite He' in He. inversion He; subst.
    inversion Hp; subst; repeat split; try assumption; lia.
  - intros (H0 & H1 & H2). destruct ok; [exists out1, s1; assumption |].
    exfalso. inversion Hp; subst; try contradiction; lia.
Qed.

(** ** transfer between buffers of bytes *)



(** What a successful extraction copies out is the front of the units
    held. *)
Lemma history_extract_output : forall s q n out s',
    history s q ->
    extract_units s n = Ok (true, out, s') ->
    out = take n q /\ len out = n.
Proof.
  intros s q n out s' Hh He.
  apply history_represents in Hh. destruct Hh as [Hr Hq].
  pose proof (represents_len_content s Hr) as Hlen.
  pose proof He as Hp. apply extract_units_path in Hp.
  apply extract_units_represents in He; [| assumption].
  destruct He as (_ & -> & _). rewrite Hq in *. split; [reflexivity |].
  assert (Hn : 0 <= n <= m_used_slots s).
  { destruct Hr as (_ & Hu & _).
    inversion Hp; subst;
      match goal with
      | H : load _ _ (_ * m_unit_size s) = Ok _ |- _ =>
          apply load_Ok_size in H; rewrite Hu in H; lia
      end. }
  apply len_take. lia.
Qed.

(** ** First in, first out, on buffers of bytes *)

Lemma insert_units_count : forall s data n s',
    represents s ->
    insert_units s data n = Ok (true, s') ->
    0 <= n <= len data.
Proof.
  intros s data n s' Hr Hi. apply insert_units_path in Hi.
  destruct Hr as (Hc & Hu & _). unfold cursors_ok in Hc.
  inversion Hi as [| | | | b H0 H1 H2 Hm | b1 b2 H0 H1 H2 H3 H4 Hm1 Hm2];
    subst.
  - unfold memcpy in Hm. apply bind_Ok in Hm.
    destruct Hm as (us & Hl & _). rewrite Hu in Hl.
    apply load_bytes in Hl. lia.
  - unfold memcpy in Hm1, Hm2.
    apply bind_Ok in Hm1. destruct Hm1 as (us1 & Hl1 & _).
    apply bind_Ok in Hm2. destruct Hm2 as (us2 & Hl2 & _).
    rewrite Hu in Hl1, Hl2.
    apply load_bytes in Hl1. apply load_bytes in Hl2. lia.
Qed.

(** A run of successful extractions copies out, call by call, the front
    of the units held, and leaves the rest. *)
Lemma extractions_history : forall s counts outputs s',
    extractions s counts outputs s' ->
    forall q,
      history s q ->
      history s' (drop (total counts) q) /\
      concat outputs = take (total counts) q /\
      Forall2 (fun c out => len out = c) counts outputs /\
      0 <= total counts.
Proof.
  intros s counts outputs s' H. induction H as
      [s | s n out s1 counts outputs s2 He Hx IH]; intros q Hh.
  - repeat split; try assumption; try constructor. simpl. lia.
  - pose proof (history_extract_output s q n out s1 Hh He) as [Hout Hlen].
    pose proof (len_nonneg out) as Hn.
    pose proof (hist_extract s q n true out s1 Hh He) as Hh1.
    cbn [fst] in Hh1.
    destruct (IH _ Hh1) as (Hh2 & Hc & Hf & Ht).
    change (total (n :: counts)) with (n + total counts).
    repeat split.
    + rewrite drop_drop in Hh2 by lia.
      rewrite (Z.add_comm n). exact Hh2.
    + cbn [concat]. rewrite Hc, Hout. symmetry. apply take_plus; lia.
    + constructor; assumption.
    + lia.
Qed.

(** X23.  First in, first out.  From a state reached by calls of
    [insert_units] and [extract_units], holding the units [q] (oldest
    first), let [insert_units] of [n] units of [data] succeed.  Then
    [data] has these [n] units, and in any run of successful extractions
    after it every call copies out exactly as many units as it was asked
    for, and together, in the order of the calls, they copy out the first
    units of [q] followed by the [n] units: first the units held before,
    in the order of their insertion, then the inserted ones in their
    order, wherever the cursors wrapped.  What is left is held for later
    calls. *)
Theorem fifo_on_bytes : forall s q data n s1 counts outputs s2,
    history s q ->
    insert_units s data n = Ok (true, s1) ->
    extractions s1 counts outputs s2 ->
    len (take n data) = n /\
    Forall2 (fun c out => len out = c) counts outputs /\
    concat outputs = take (total counts) (q ++ take n data) /\
    history s2 (drop (total counts) (q ++ take n data)).
Proof.
  intros s q data n s1 counts outputs s2 Hh Hi Hx.
  pose proof (history_represents s q Hh) as [Hr _].
  pose proof (insert_units_count s data n s1 Hr Hi) as Hn.
  pose proof (hist_insert s q data n true s1 Hh Hi) as Hh1.
  destruct (extractions_history s1 counts outputs s2 Hx _ Hh1)
    as (Hh2 & Hc & Hf & _).
  split; [apply len_take; assumption |].
  split; [assumption |]. split; assumption.
Qed.

End Bytes.

End Facts.

(** * The scenarios

    ** How the scenario buffers are reached *)

Lemma none_of_four_new : construct 4 = Ok none_of_four.
Proof. reflexivity. Qed.

Lemma three_of_ten_history : history three_of_ten [6; 7; 8].
Proof. apply (run_history 10 three_of_ten_calls). reflexivity. Qed.

Lemma full_of_four_history : history full_of_four [3; 4; 5; 6].
Proof. apply (run_history 4 full_of_four_calls). reflexivity. Qed.

Lemma two_of_four_history : history two_of_four [1; 2].
Proof. apply (run_history 4 two_of_four_calls). reflexivity. Qed.

Lemma four_of_four_history : history four_of_four [1; 2; 3; 4].
Proof. apply (run_history 4 four_of_four_calls). reflexivity. Qed.

Lemma two_of_four_wide_history :
  history (UT := uint16_t) two_of_four_wide [1; 2].
Proof.
  apply (run_history (UT := uint16_t) 4 [Insert [1; 2] 2]). reflexivity.
Qed.

Lemma one_and_one_wide_history :
  history (UT := uint16_t) one_and_one_wide [1; 2].
Proof.
  apply (run_history (UT := uint16_t) 4 [Insert [1] 1; Insert [2] 1]).
  reflexivity.
Qed.

(** ** Where the code leaves the specification *)

(** C1.  The scenario of the specification: capacity 10, three units held
    at slots 5 to 7, seven slots free.  [insert_units] of seven units,
    which have to wrap past the end of the array, is rejected and leaves
    the buffer as it was; six units are accepted. *)
Theorem insert_units_rejects_exact_fit :
  history three_of_ten [6; 7; 8] /\
  free_space three_of_ten = 7 /\
  insert_units three_of_ten [9; 10; 11; 12; 13; 14; 15] 7
  = Ok (false, three_of_ten) /\
  insert_units three_of_ten [9; 10; 11; 12; 13; 14] 6
  = Ok (true,
        mkCircularBuffer 1 10 4 5
          (Some [11; 12; 13; 14; 5; 6; 7; 8; 9; 10]) 9).
Proof.
  split; [exact three_of_ten_history |].
  repeat split.
Qed.

(** C2.  A full buffer of capacity 4 whose head equals its tail: every
    extraction of a positive count is rejected, also of the four units it
    holds. *)
Theorem extract_units_rejects_full_buffer :
  history full_of_four [3; 4; 5; 6] /\
  used_space full_of_four = m_unit_count full_of_four /\
  m_buffer_head full_of_four = m_buffer_tail full_of_four /\
  extract_units full_of_four 1 = Ok (false, [], full_of_four) /\
  extract_units full_of_four 4 = Ok (false, [], full_of_four).
Proof.
  split; [exact full_of_four_history |].
  repeat split.
Qed.

(** C3.  [reset] leaves the used count as it is: after it a buffer that
    held two units still reports two. *)
Theorem reset_keeps_used_slots :
  (forall (Unit : Type) (s : CircularBuffer (Unit := Unit)),
      used_space (reset s) = used_space s) /\
  history two_of_four [1; 2] /\
  used_space (reset two_of_four) = 2 /\
  free_space (reset two_of_four) = 2.
Proof.
  split; [intros Unit s; reflexivity |].
  split; [exact two_of_four_history |].
  split; reflexivity.
Qed.

(** C4.  The order first in, first out is lost in two ways.  With units
    of two bytes: a buffer of capacity 4 holds the unit 1, [insert_units]
    of the unit 2 succeeds, and [extract_units] of two units succeeds and
    copies out 1 and the content of a slot never written, not 1 and 2.
    With bytes, after [reset()]: a buffer that held one unit when it was
    reset takes 5, 6, 7, gives them back, takes 8, 9, and then
    [extract_units] of three units succeeds and copies out 8, 9 and 6, a
    unit that was extracted before. *)
Theorem fifo_order_lost :
  (history (UT := uint16_t) one_wide [1] /\
   insert_units (UT := uint16_t) one_wide [2] 1
   = Ok (true, one_and_one_wide) /\
   extract_units (UT := uint16_t) one_and_one_wide 2
   = Ok (true, [1; 0], mkCircularBuffer 2 4 2 2 (Some [1; 0; 2; 0]) 0)) /\
  (history one_of_four [2] /\
   reset one_of_four = mkCircularBuffer 1 4 0 0 (Some [1; 2; 0; 0]) 1 /\
   insert_units (mkCircularBuffer 1 4 0 0 (Some [1; 2; 0; 0]) 1) [5; 6; 7] 3
   = Ok (true, mkCircularBuffer 1 4 3 0 (Some [5; 6; 7; 0]) 4) /\
   extract_units (mkCircularBuffer 1 4 3 0 (Some [5; 6; 7; 0]) 4) 3
   = Ok (true, [5; 6; 7], mkCircularBuffer 1 4 3 3 (Some [5; 6; 7; 0]) 1) /\
   insert_units (mkCircularBuffer 1 4 3 3 (Some [5; 6; 7; 0]) 1) [8; 9] 2
   = Ok (true, mkCircularBuffer 1 4 1 3 (Some [9; 6; 7; 8]) 3) /\
   extract_units (mkCircularBuffer 1 4 1 3 (Some [9; 6; 7; 8]) 3) 3
   = Ok (true, [8; 9; 6], mkCircularBuffer 1 4 1 2 (Some [9; 6; 7; 8]) 0)).
Proof.
  split.
  - split; [| split; reflexivity].
    apply (run_history (UT := uint16_t) 4 [Insert [1] 1]). reflexivity.
  - split; [| repeat split].
    apply (run_history 4 one_of_four_calls). reflexivity.
Qed.

(** C5.  Copy assignment from the full buffer whose head equals its tail
    into a new buffer of the same capacity copies nothing: the
    destination is as before and holds no unit, where the source holds
    four. *)
Theorem copy_assign_skips_full_source :
  history full_of_four [3; 4; 5; 6] /\
  used_space full_of_four = 4 /\
  construct 4 = Ok none_of_four /\
  copy_assign none_of_four full_of_four = Ok none_of_four /\
  used_space none_of_four = 0 /\
  extract_units none_of_four 4 = Ok (false, [], none_of_four).
Proof.
  split; [exact full_of_four_history |].
  repeat split.
Qed.

(** C6, as stated, fails: after a new buffer of capacity 4 has taken four
    units its head equals the capacity. *)
Lemma cursor_reaches_capacity :
  reachable four_of_four /\
  0 < m_unit_count four_of_four /\
  ~ (0 <= m_buffer_head four_of_four < m_unit_count four_of_four).
Proof.
  split; [exists [1; 2; 3; 4]; exact four_of_four_history |].
  split; [reflexivity |].
  simpl. lia.
Qed.

(** C10.  With units of two bytes the address of the head is element
    [2 * head]: after two units it is element 4 of an array of 4, and the
    next insertion writes outside the array, with two slots free.  One
    unit at a time, the second unit lands on element 2, and extraction
    reads elements 0 and 1. *)
Theorem cursor_offset_scaled_by_unit_size :
  history (UT := uint16_t) two_of_four_wide [1; 2] /\
  m_buffer_head two_of_four_wide = 2 /\
  get_buffer_head two_of_four_wide = 4 /\
  m_unit_count two_of_four_wide = 4 /\
  insert_units (UT := uint16_t) two_of_four_wide [3] 1
  = Fault OutOfBounds /\
  history (UT := uint16_t) one_and_one_wide [1; 2] /\
  extract_units (UT := uint16_t) one_and_one_wide 2
  = Ok (true, [1; 0], mkCircularBuffer 2 4 2 2 (Some [1; 0; 2; 0]) 0).
Proof.
  split; [exact two_of_four_wide_history |].
  do 4 (split; [reflexivity |]).
  split; [exact one_and_one_wide_history | reflexivity].
Qed.

(** ** Instances of the general claims *)

(** X23 at the scenario of the specification: three units held, six
    inserted across the end of the array, then four and five extracted. *)
Lemma fifo_on_bytes_witness :
  len (take 6 [9; 10; 11; 12; 13; 14]) = 6 /\
  Forall2 (fun c out => len out = c) [4; 5]
          [[6; 7; 8; 9]; [10; 11; 12; 13; 14]] /\
  concat [[6; 7; 8; 9]; [10; 11; 12; 13; 14]]
  = take (total [4; 5]) ([6; 7; 8] ++ take 6 [9; 10; 11; 12; 13; 14]) /\
  history (mkCircularBuffer 1 10 4 4
             (Some [11; 12; 13; 14; 5; 6; 7; 8; 9; 10]) 0)
          (drop (total [4; 5])
                ([6; 7; 8] ++ take 6 [9; 10; 11; 12; 13; 14])).
Proof.
  apply (fifo_on_bytes (UT := uint8_t) eq_refl
           three_of_ten [6; 7; 8] [9; 10; 11; 12; 13; 14] 6
           (mkCircularBuffer 1 10 4 5
              (Some [11; 12; 13; 14; 5; 6; 7; 8; 9; 10]) 9)).
  - apply (run_history 10 three_of_ten_calls). reflexivity.
  - reflexivity.
  - apply (extractions_next
             (mkCircularBuffer 1 10 4 5
                (Some [11; 12; 13; 14; 5; 6; 7; 8; 9; 10]) 9)
             4 [6; 7; 8; 9]
             (mkCircularBuffer 1 10 4 9
                (Some [11; 12; 13; 14; 5; 6; 7; 8; 9; 10]) 5)).
    + reflexivity.
    + apply (extractions_next
               (mkCircularBuffer 1 10 4 9
                  (Some [11; 12; 13; 14; 5; 6; 7; 8; 9; 10]) 5)
               5 [10; 11; 12; 13; 14]
               (mkCircularBuffer 1 10 4 4
                  (Some [11; 12; 13; 14; 5; 6; 7; 8; 9; 10]) 0)).
      * reflexivity.
      * apply extractions_done.
Defined.

(** C6, as amended, at the buffer whose head has reached the capacity. *)
Lemma cursors_within_capacity_witness :
  0 <= m_buffer_head four_of_four <= m_unit_count four_of_four /\
  0 <= m_buffer_tail four_of_four <= m_unit_count four_of_four.
Proof.
  apply (cursors_within_capacity (UT := uint8_t) four_of_four).
  - exists [1; 2; 3; 4].
    apply (run_history 4 four_of_four_calls). reflexivity.
  - reflexivity.
Defined.

(** C7 at an insertion into the full buffer. *)
Lemma failure_atomicity_witness :
  insert_units full_of_four [7] 1 = Ok (false, full_of_four) /\
  full_of_four = full_of_four.
Proof.
  split; [reflexivity |].
  apply (failure_atomicity (UT := uint8_t) full_of_four [7] 1 []
           full_of_four).
  left. reflexivity.
Defined.

(** C8 at a successful insertion and a successful extraction. *)
Lemma frame_conditions_witness :
  m_buffer_tail (mkCircularBuffer 1 4 3 0 (Some [1; 2; 3; 0]) 3)
  = m_buffer_tail two_of_four /\
  m_buffer_head (mkCircularBuffer 1 4 2 1 (Some [1; 2; 0; 0]) 1)
  = m_buffer_head two_of_four /\
  m_buffer (mkCircularBuffer 1 4 2 1 (Some [1; 2; 0; 0]) 1)
  = m_buffer two_of_four.
Proof.
  pose proof (frame_conditions (UT := uint8_t) two_of_four [3] 1 true
                (mkCircularBuffer 1 4 3 0 (Some [1; 2; 3; 0]) 3)
                1 true [1]
                (mkCircularBuffer 1 4 2 1 (Some [1; 2; 0; 0]) 1))
    as [Hi He].
  split.
  - apply Hi. reflexivity.
  - apply He. reflexivity.
Defined.

(** C9 at an empty source with a destination that holds units, and at
    the full source whose head equals its tail. *)
Lemma transfer_head_eq_tail_witness :
  (copy_assign two_of_four none_of_four = Ok two_of_four /\
   copy_construct none_of_four = Ok default_members) /\
  (copy_assign none_of_four full_of_four = Ok none_of_four /\
   copy_construct full_of_four = Ok default_members).
Proof.
  split.
  - apply (transfer_head_eq_tail (UT := uint8_t) two_of_four none_of_four).
    reflexivity.
  - apply (transfer_head_eq_tail (UT := uint8_t) none_of_four full_of_four).
    reflexivity.
Defined.

(** * Further properties of the buffer *)

Section Further.

Context {Unit : Type} {UT : UnitType Unit}.

Implicit Types (s this source : CircularBuffer (Unit := Unit)).
Implicit Types (l us data q out outs : list Unit).

(** ** For every unit type *)

(** X1.  In every state reached from the constructor by calls of
    [insert_units] and [extract_units], [used_space()] and [free_space()]
    lie between 0 and the capacity. *)
Theorem used_space_within_capacity : forall s,
    reachable s ->
    0 <= used_space s <= m_unit_count s /\
    0 <= free_space s <= m_unit_count s.
Proof.
  intros s [q Hh]. apply history_cursors in Hh.
  destruct Hh as [_ Hc]. unfold cursors_ok in Hc.
  unfold used_space, free_space. lia.
Qed.

(** X2.  A successful [insert_units] raises the used count by exactly
    [unit_count] and a successful [extract_units] lowers it by exactly
    [unit_count], on every path, wrapped or not. *)
Theorem used_space_accounting : forall s data n s1 m out s2,
    (insert_units s data n = Ok (true, s1) ->
     used_space s1 = used_space s + n) /\
    (extract_units s m = Ok (true, out, s2) ->
     used_space s2 = used_space s - m).
Proof.
  intros s data n s1 m out s2. split; intros H.
  - apply insert_units_path in H. inversion H; subst; reflexivity.
  - apply extract_units_path in H. inversion H; subst; reflexivity.
Qed.

Lemma transfer_fixed : forall this source this',
    transfer this source = Ok this' ->
    m_unit_count this' = m_unit_count this /\
    m_unit_size this' = m_unit_size this.
Proof.
  intros d src d' H. unfold transfer in H.
  destruct (negb (m_buffer_head src =? m_buffer_tail src)).
  - destruct (negb ((m_unit_size src =? m_unit_size d)
                    || (m_unit_count src <=? m_unit_count d)));
      [discriminate |].
    apply bind_Ok in H. destruct H as (b & _ & H).
    inversion H; subst. split; reflexivity.
  - inversion H; subst. split; reflexivity.
Qed.

(** X3.  The capacity and the unit size of a buffer never change: not by
    [insert_units], [extract_units] or [reset], and not by copy
    assignment, which leaves the destination its own capacity. *)
Theorem capacity_is_fixed : forall s data n ok s1 out s2 source s3,
    (insert_units s data n = Ok (ok, s1) ->
     m_unit_count s1 = m_unit_count s /\ m_unit_size s1 = m_unit_size s) /\
    (extract_units s n = Ok (ok, out, s2) ->
     m_unit_count s2 = m_unit_count s /\ m_unit_size s2 = m_unit_size s) /\
    (m_unit_count (reset s) = m_unit_count s /\
     m_unit_size (reset s) = m_unit_size s) /\
    (copy_assign s source = Ok s3 ->
     m_unit_count s3 = m_unit_count s /\ m_unit_size s3 = m_unit_size s).
Proof.
  intros s data n ok s1 out s2 source s3.
  split; [intros H; eapply insert_units_fixed; eassumption |].
  split; [intros H; eapply extract_units_fixed; eassumption |].
  split; [split; reflexivity |].
  intros H. eapply transfer_fixed; eassumption.
Qed.

(** X4.  A buffer of capacity 0 stays empty and rejects every call: in a
    reachable state with capacity 0 both queries return 0, and
    [insert_units] and [extract_units] return false for every argument
    and change nothing. *)
Theorem capacity_zero_rejects_all : forall s data n,
    reachable s ->
    m_unit_count s = 0 ->
    used_space s = 0 /\ free_space s = 0 /\
    insert_units s data n = Ok (false, s) /\
    extract_units s n = Ok (false, [], s).
Proof.
  intros s data n [q Hh] H0. apply history_cursors in Hh.
  destruct Hh as [_ Hc]. unfold cursors_ok in Hc.
  unfold used_space, free_space.
  repeat split; try lia.
  - apply insert_units_path. now apply ins_disabled.
  - apply extract_units_path. now apply ext_disabled.
Qed.

(** X6.  A full buffer whose head equals its tail is stuck: every
    [insert_units] and every [extract_units] of a positive count returns
    false and leaves it as it is, so no sequence of such calls leads out
    of this state. *)
Theorem full_with_equal_cursors_is_stuck : forall s data n,
    m_unit_count s <> 0 ->
    m_buffer_head s = m_buffer_tail s ->
    m_used_slots s = m_unit_count s ->
    0 < n ->
    insert_units s data n = Ok (false, s) /\
    extract_units s n = Ok (false, [], s).
Proof.
  intros s data n H0 Hht Hfull Hn. split.
  - apply insert_units_path. apply ins_no_space; [assumption | lia].
  - apply extract_units_path.
    destruct (Z.lt_ge_cases (m_used_slots s) n) as [E | E].
    + now apply ext_no_data.
    + apply ext_should_not_happen; try assumption; lia.
Qed.

(** X7.  Copy construction never copies: from a reachable source whose
    cursors differ the assertion of [transfer] fails, because the new
    object has unit size 0 and capacity 0 when [transfer] runs. *)
Theorem copy_construct_never_copies : forall source,
    reachable source ->
    m_buffer_head source <> m_buffer_tail source ->
    copy_construct source = Fault AssertionFailed.
Proof.
  intros src [q Hh] Hne. apply history_cursors in Hh.
  destruct Hh as [Hu Hc]. unfold cursors_ok in Hc.
  pose proof sizeof_pos as Hpos.
  apply copy_construct_faults; [assumption | lia | lia].
Qed.




End Further.

(** ** For buffers of bytes *)

Section FurtherBytes.

Context {Unit : Type} {UT : UnitType Unit}.

Hypothesis sizeof_byte : sizeof = 1.

Implicit Types (s this source : CircularBuffer (Unit := Unit)).
Implicit Types (l us data q out outs : list Unit).

(** X8.  The used count is the number of units held: in a state reached
    with the units [q] inserted and not yet removed, [used_space()] is
    the length of [q]. *)
Theorem used_space_counts_units : forall s q,
    history s q ->
    used_space s = len q.
Proof.
  intros s q Hh. apply (history_represents sizeof_byte) in Hh.
  destruct Hh as [Hr Hq]. rewrite <- Hq.
  symmetry. apply represents_len_content. assumption.
Qed.

(** With room in the caller's array, [extract_units_to] writes into it
    what [extract_units] hands out, from its element 0 on, and leaves
    the rest of it. *)
Lemma extract_units_to_agrees : forall s data n ok out s',
    represents s ->
    n <= len data ->
    extract_units s n = Ok (ok, out, s') ->
    extract_units_to s data n
    = Ok (ok, if ok then out ++ drop n data else data, s').
Proof.
  intros s data n ok out s' (Hc & Hu & Hl & Hb) Hd He.
  unfold cursors_ok in Hc. apply extract_units_path in He.
  assert (Hstore : forall us, len us <= len data ->
             store (Some data) 0 us
             = Ok (Some (us ++ drop (len us) data))).
  { intros us Hus. unfold store.
    rewrite (proj2 (Z.leb_le 0 0) (Z.le_refl 0)).
    rewrite (proj2 (Z.leb_le (0 + len us) (len data))) by lia.
    reflexivity. }
  unfold extract_units_to.
  destruct He as [H0 | H0 H1 | H0 H1 H2 H3
                  | o H0 H1 H2 Ho | o1 o2 H0 H1 H2 H3 Ho1 Ho2].
  - rewrite (proj2 (Z.eqb_eq _ _) H0). reflexivity.
  - rewrite (proj2 (Z.eqb_neq _ _) H0).
    rewrite (proj2 (Z.ltb_lt _ _) H1). reflexivity.
  - rewrite (proj2 (Z.eqb_neq _ _) H0).
    rewrite (proj2 (Z.ltb_ge _ _) H1).
    rewrite (proj2 (Z.ltb_ge _ _) H2).
    rewrite (proj2 (Z.ltb_lt _ _) H3). reflexivity.
  - assert (Hlen : len o = n).
    { pose proof Ho as Ho'. rewrite Hb, Hu in Ho' by assumption.
      apply (load_bytes sizeof_byte) in Ho'. lia. }
    rewrite (proj2 (Z.eqb_neq _ _) H0).
    rewrite (proj2 (Z.ltb_ge _ _) H1).
    destruct H2 as [[H2 H3] | [H2 H3]].
    + rewrite (proj2 (Z.ltb_lt _ _) H2).
      rewrite (proj2 (Z.ltb_ge _ _) H3).
      unfold memcpy. rewrite Ho. cbn [bind].
      rewrite Hstore by lia. cbn [bind]. rewrite Hlen. reflexivity.
    + rewrite (proj2 (Z.ltb_ge _ _) H2).
      rewrite (proj2 (Z.ltb_ge _ _) H3).
      unfold memcpy. rewrite Ho. cbn [bind].
      rewrite Hstore by lia. cbn [bind]. rewrite Hlen. reflexivity.
  - assert (Hlen1 : len o1 = m_unit_count s - m_buffer_tail s).
    { pose proof Ho1 as Ho'. rewrite Hb, Hu in Ho' by assumption.
      apply (load_bytes sizeof_byte) in Ho'. lia. }
    assert (Hlen2 : len o2 = n - (m_unit_count s - m_buffer_tail s)).
    { pose proof Ho2 as Ho'. rewrite Hb, Hu in Ho' by assumption.
      apply (load_bytes sizeof_byte) in Ho'. lia. }
    pose proof (len_nonneg o1). pose proof (len_nonneg o2).
    rewrite (proj2 (Z.eqb_neq _ _) H0).
    rewrite (proj2 (Z.ltb_ge _ _) H1).
    rewrite (proj2 (Z.ltb_lt _ _) H2).
    rewrite (proj2 (Z.ltb_lt _ _) H3).
    unfold memcpy at 1. rewrite Ho1. cbn [bind].
    rewrite Hstore by lia. cbn [bind].
    unfold get_buffer_tail, set_tail, set_used. cbn [m_buffer_tail
      m_unit_size m_buffer m_used_slots m_unit_count m_buffer_head].
    rewrite Z.mul_0_l.
    unfold memcpy. rewrite Ho2. cbn [bind].
    unfold store. rewrite <- Hlen1 at 1 2.
    assert (Hd1 : len (o1 ++ drop (len o1) data) = len data).
    { rewrite len_app, len_drop by lia. lia. }
    rewrite (proj2 (Z.leb_le 0 (len o1))) by lia.
    rewrite (proj2 (Z.leb_le (len o1 + len o2)
                             (len (o1 ++ drop (len o1) data)))) by lia.
    cbn [andb bind].
    rewrite take_app_l by lia. rewrite take_all by lia.
    rewrite drop_app_r by lia.
    rewrite drop_drop by lia.
    rewrite <- app_assoc. unfold extracted_wrapped.
    replace (m_unit_count s - m_buffer_tail s + len o2 - len o1 + len o1)
      with n by lia.
    replace (0 + (n - (m_unit_count s - m_buffer_tail s)))
      with (n - (m_unit_count s - m_buffer_tail s)) by lia.
    replace (m_used_slots s - (m_unit_count s - m_buffer_tail s)
             - (n - (m_unit_count s - m_buffer_tail s)))
      with (m_used_slots s - n) by lia.
    reflexivity.
Qed.

(** X9.  Memory safety: on a reachable buffer no [memcpy] leaves the
    storage or a caller's array.  [insert_units] of [unit_count >= 0]
    units returns when the caller's array holds that many, and
    [extract_units] of [unit_count >= 0] units returns when the caller's
    array has room for that many; it then has written only the units it
    hands out, from element 0 of that array on. *)
Theorem calls_stay_in_bounds : forall s data n,
    reachable s ->
    0 <= n <= len data ->
    (exists ok s', insert_units s data n = Ok (ok, s')) /\
    (exists ok out s',
        extract_units s n = Ok (ok, out, s') /\
        extract_units_to s data n
        = Ok (ok, if ok then out ++ drop n data else data, s')).
Proof.
  intros s data n [q Hh] Hn. apply (history_represents sizeof_byte) in Hh.
  destruct Hh as [Hr _]. split.
  - apply (insert_units_returns sizeof_byte); assumption.
  - destruct (extract_units_returns sizeof_byte s n Hr (proj1 Hn))
      as (ok & out & s' & He).
    exists ok, out, s'. split; [exact He |].
    apply extract_units_to_agrees; [assumption | lia | exact He].
Qed.




(** X13.  A count of 0 is accepted and changes nothing: on a reachable
    buffer of capacity > 0, [insert_units] of no unit and
    [extract_units] of no unit return true, copy nothing and leave the
    buffer as it is, also when it is full. *)
Theorem zero_count_is_accepted : forall s data,
    reachable s ->
    m_unit_count s <> 0 ->
    insert_units s data 0 = Ok (true, s) /\
    extract_units s 0 = Ok (true, [], s).
Proof.
  intros s data [q Hh] H0. apply (history_represents sizeof_byte) in Hh.
  destruct Hh as [(Hc & Hu & Hl & Hb) _]. unfold cursors_ok in Hc.
  pose proof (len_nonneg data) as Hd.
  assert (Ei : inserted s (m_buffer s) 0 = s).
  { destruct s; unfold inserted; simpl. f_equal; lia. }
  assert (Ee : extracted s 0 = s).
  { destruct s; unfold extracted; simpl. f_equal; lia. }
  split.
  - rewrite <- Ei at 2. apply insert_units_path.
    apply ins_block; [assumption | lia | lia |].
    unfold get_buffer_head. rewrite Hb at 1 by assumption. rewrite Hu.
    rewrite (memcpy_bytes_Ok sizeof_byte) by lia.
    rewrite take_0, patch_nil. symmetry. rewrite Hb by assumption.
    reflexivity.
  - rewrite <- Ee at 2. apply extract_units_path.
    apply ext_block; [assumption | lia | lia |].
    unfold get_buffer_tail. rewrite Hb by assumption. rewrite Hu.
    rewrite (load_bytes_Ok sizeof_byte) by lia.
    rewrite take_0. reflexivity.
Qed.

Lemma load_negative : forall l off nbytes,
    nbytes < 0 ->
    load (Some l) off nbytes = Fault OutOfBounds.
Proof.
  intros l off nbytes H. unfold load.
  rewrite (proj2 (Z.leb_gt _ _) H), andb_false_r. reflexivity.
Qed.

(** X5.  A negative count is not rejected: on a reachable buffer of
    bytes with capacity > 0, [insert_units] and [extract_units] pass
    every test with it and call [memcpy] with the negative count as its
    size, which is undefined. *)
Theorem negative_count_is_undefined : forall s data n,
    reachable s ->
    m_unit_count s <> 0 ->
    n < 0 ->
    insert_units s data n = Fault OutOfBounds /\
    extract_units s n = Fault OutOfBounds.
Proof.
  intros s data n [q Hh] H0 Hn.
  apply (history_represents sizeof_byte) in Hh.
  destruct Hh as [(Hc & Hu & Hl & Hb) _]. unfold cursors_ok in Hc.
  assert (Hm : forall off,
             memcpy (m_buffer s) off (Some data) 0 (n * m_unit_size s)
             = Fault OutOfBounds).
  { intros off. unfold memcpy. rewrite load_negative by lia. reflexivity. }
  assert (Ho : load (m_buffer s) (get_buffer_tail s) (n * m_unit_size s)
               = Fault OutOfBounds).
  { rewrite Hb by assumption. apply load_negative. lia. }
  split.
  - unfold insert_units.
    rewrite (proj2 (Z.eqb_neq _ _) H0).
    rewrite (proj2 (Z.ltb_ge (m_unit_count s - m_used_slots s) n)) by lia.
    destruct (Z.ltb_spec (m_buffer_head s) (m_buffer_tail s)) as [E | E].
    + rewrite (proj2 (Z.ltb_ge (m_buffer_tail s - m_buffer_head s) n))
        by lia.
      rewrite Hm. reflexivity.
    + rewrite Z.geb_leb.
      rewrite (proj2 (Z.leb_le n (m_unit_count s - m_buffer_head s)))
        by lia.
      rewrite Hm. reflexivity.
  - unfold extract_units.
    rewrite (proj2 (Z.eqb_neq _ _) H0).
    rewrite (proj2 (Z.ltb_ge (m_used_slots s) n)) by lia.
    destruct (Z.ltb_spec (m_buffer_head s) (m_buffer_tail s)) as [E | E].
    + rewrite (proj2 (Z.ltb_ge (m_unit_count s - m_buffer_tail s) n))
        by lia.
      rewrite Ho. reflexivity.
    + rewrite (proj2 (Z.ltb_ge (m_buffer_head s - m_buffer_tail s) n))
        by lia.
      rewrite Ho. reflexivity.
Qed.


Lemma store_overrun : forall l off us,
    0 <= off ->
    len l < off + len us ->
    store (Some l) off us = Fault OutOfBounds.
Proof.
  intros l off us H0 H1. unfold store.
  rewrite (proj2 (Z.leb_le _ _) H0), (proj2 (Z.leb_gt _ _) H1).
  reflexivity.
Qed.



(** X17.  [reset()] of an empty buffer gives the whole capacity back to
    one call: after it [insert_units] of any [unit_count] up to the
    capacity succeeds, and [extract_units] of as many returns these
    units. *)
Theorem reset_of_empty_round_trip : forall s q data n,
    history s q ->
    used_space s = 0 ->
    m_unit_count s <> 0 ->
    0 <= n <= m_unit_count s ->
    n <= len data ->
    exists s1 s2,
      insert_units (reset s) data n = Ok (true, s1) /\
      extract_units s1 n = Ok (true, take n data, s2).
Proof.
  intros s q data n Hh Hempty H0 Hn Hd.
  apply (history_represents sizeof_byte) in Hh.
  destruct Hh as [(Hc & Hu & Hl & Hb) _].
  unfold cursors_ok in Hc. unfold used_space in Hempty.
  assert (Hr : represents (reset s)).
  { unfold represents, cursors_ok, reset, storage in *; simpl.
    repeat split; try lia; try assumption. }
  assert (Hcr : content (reset s) = []).
  { unfold content; simpl. rewrite Hempty. apply take_0. }
  assert (Hi : exists s1, insert_units (reset s) data n = Ok (true, s1)).
  { apply (insert_units_accepts sizeof_byte); [assumption | lia |].
    simpl. lia. }
  destruct Hi as (s1 & Hi). exists s1.
  pose proof Hi as Hi0.
  pose proof (insert_units_fixed _ _ _ _ _ Hi) as Hfix.
  pose proof Hi as Hp. apply insert_units_path in Hp.
  assert (Hcur : m_buffer_head s1 = n /\ m_buffer_tail s1 = 0).
  { inversion Hp; subst; simpl in *; lia. }
  apply (insert_units_represents sizeof_byte) in Hi; [| assumption].
  destruct Hi as [Hr1 Hc1]. rewrite Hcr in Hc1. simpl in Hc1.
  pose proof (represents_len_content s1 Hr1) as Hlen.
  rewrite Hc1, len_take in Hlen by lia.
  assert (He : exists out s2, extract_units s1 n = Ok (true, out, s2)).
  { apply (extract_units_grants sizeof_byte); [assumption | lia |].
    simpl in Hfix. lia. }
  destruct He as (out & s2 & He). exists s2. split; [exact Hi0 |].
  pose proof He as He'.
  apply (extract_units_represents sizeof_byte) in He'; [| assumption].
  destruct He' as (_ & -> & _). rewrite He. do 3 f_equal.
  rewrite Hc1. apply take_take. lia.
Qed.


End FurtherBytes.

(** * Properties of the checksum *)

Lemma distinct_NoDup : forall l, distinct l = true -> NoDup l.
Proof.
  induction l as [| x r IH]; intros H; simpl in H.
  - constructor.
  - apply andb_prop in H. destruct H as [Hx Hr].
    constructor; [| apply IH; assumption].
    intros Hin. apply negb_true_iff in Hx.
    assert (Ht : existsb (Z.eqb x) r = true).
    { apply existsb_exists. exists x. split; [assumption |].
      apply Z.eqb_refl. }
    congruence.
Qed.

Lemma table_length : length generate_crc_lookup_table = 256%nat.
Proof. reflexivity. Qed.

Lemma table_range : forall i,
    0 <= nth i generate_crc_lookup_table 0 < 2 ^ 32.
Proof.
  assert (H : forallb (fun x => (0 <=? x) && (x <? 2 ^ 32))
                      generate_crc_lookup_table = true)
    by (vm_compute; reflexivity).
  intros i. destruct (Nat.lt_ge_cases i 256) as [Hi | Hi].
  - rewrite forallb_forall in H.
    specialize (H (nth i generate_crc_lookup_table 0)).
    rewrite andb_true_iff, Z.leb_le, Z.ltb_lt in H. apply H.
    apply nth_In. rewrite table_length. assumption.
  - rewrite nth_overflow by (rewrite table_length; assumption).
    split; [lia | reflexivity].
Qed.

Lemma table_top_bytes_distinct :
  NoDup (map (fun x => Z.shiftr x 24) generate_crc_lookup_table).
Proof. apply distinct_NoDup. vm_compute. reflexivity. Qed.

Lemma low_byte_range : forall x, 0 <= Z.land x 0xFF < 256.
Proof.
  intros x. change 0xFF with (Z.ones 8).
  rewrite Z.land_ones by lia. change (2 ^ 8) with 256.
  apply Z.mod_pos_bound. lia.
Qed.

Lemma low_byte_lxor : forall x y,
    Z.land (Z.lxor x y) 0xFF = Z.lxor (Z.land x 0xFF) (Z.land y 0xFF).
Proof.
  intros x y. apply Z.bits_inj'. intros k Hk.
  rewrite Z.lxor_spec, !Z.land_spec, Z.lxor_spec.
  destruct (Z.testbit 0xFF k); [rewrite !andb_true_r | rewrite !andb_false_r];
    reflexivity.
Qed.

Lemma lxor_cancel_l : forall a b c, Z.lxor a b = Z.lxor a c -> b = c.
Proof.
  intros a b c H. apply (f_equal (Z.lxor a)) in H.
  rewrite <- !Z.lxor_assoc, Z.lxor_nilpotent, !Z.lxor_0_l in H. exact H.
Qed.

Lemma lxor_cancel_r : forall a b c, Z.lxor b a = Z.lxor c a -> b = c.
Proof.
  intros a b c H. rewrite (Z.lxor_comm b), (Z.lxor_comm c) in H.
  eapply lxor_cancel_l; eassumption.
Qed.

Lemma lxor_range : forall n a b,
    0 <= n -> 0 <= a < 2 ^ n -> 0 <= b < 2 ^ n ->
    0 <= Z.lxor a b < 2 ^ n.
Proof.
  intros n a b Hn Ha Hb.
  assert (H0 : 0 <= Z.lxor a b) by (apply Z.lxor_nonneg; lia).
  split; [assumption |].
  destruct (Z.eq_dec (Z.lxor a b) 0) as [E | E]; [lia |].
  destruct (Z.eq_dec n 0) as [-> | Nn].
  { change (2 ^ 0) with 1 in *. assert (a = 0) by lia.
    assert (b = 0) by lia. subst a b. simpl in E. lia. }
  apply Z.log2_lt_pow2; [lia |].
  pose proof (Z.log2_lxor a b (proj1 Ha) (proj1 Hb)) as Hl.
  assert (L : forall x, 0 <= x < 2 ^ n -> Z.log2 x < n).
  { intros x Hx. destruct (Z.eq_dec x 0) as [-> | Nx].
    - simpl. lia.
    - apply Z.log2_lt_pow2; lia. }
  pose proof (L a Ha). pose proof (L b Hb). lia.
Qed.

Lemma shiftr_range : forall c k,
    0 <= k <= 32 -> 0 <= c < 2 ^ 32 ->
    0 <= Z.shiftr c k < 2 ^ 32.
Proof.
  intros c k Hk Hc. rewrite Z.shiftr_div_pow2 by lia.
  assert (Hp : 0 < 2 ^ k) by (apply Z.pow_pos_nonneg; lia).
  split.
  - apply Z.div_pos; lia.
  - apply Z.le_lt_trans with c; [| lia].
    apply Z.div_le_upper_bound; [lia |]. nia.
Qed.

Lemma crc_step_range : forall c v,
    0 <= c < 2 ^ 32 ->
    0 <= crc_step generate_crc_lookup_table c v < 2 ^ 32.
Proof.
  intros c v Hc. unfold crc_step.
  apply lxor_range; [lia | apply table_range |].
  apply shiftr_range; [lia | assumption].
Qed.

Lemma fold_crc_step_range : forall l c,
    0 <= c < 2 ^ 32 ->
    0 <= fold_left (crc_step generate_crc_lookup_table) l c < 2 ^ 32.
Proof.
  induction l as [| v l IH]; intros c Hc; simpl.
  - assumption.
  - apply IH. apply crc_step_range. assumption.
Qed.

Lemma table_index_inj : forall x y,
    0 <= x < 256 -> 0 <= y < 256 ->
    Z.shiftr (nth (Z.to_nat x) generate_crc_lookup_table 0) 24
    = Z.shiftr (nth (Z.to_nat y) generate_crc_lookup_table 0) 24 ->
    x = y.
Proof.
  intros x y Hx Hy H.
  pose proof table_top_bytes_distinct as Hd.
  rewrite (NoDup_nth _ 0) in Hd.
  assert (E : Z.to_nat x = Z.to_nat y).
  { apply Hd.
    - rewrite length_map, table_length. lia.
    - rewrite length_map, table_length. lia.
    - set (f := fun t => Z.shiftr t 24).
      change (nth (Z.to_nat x) (map f generate_crc_lookup_table) (f 0)
              = nth (Z.to_nat y) (map f generate_crc_lookup_table) (f 0)).
      rewrite !map_nth. exact H. }
  lia.
Qed.

(** Two bytes give different steps from one checksum. *)
Lemma crc_step_inj_value : forall c a b,
    0 <= a < 256 -> 0 <= b < 256 ->
    crc_step generate_crc_lookup_table c a
    = crc_step generate_crc_lookup_table c b ->
    a = b.
Proof.
  intros c a b Ha Hb H. unfold crc_step in H.
  apply lxor_cancel_r in H.
  apply (f_equal (fun t => Z.shiftr t 24)) in H.
  apply table_index_inj in H; try apply low_byte_range.
  rewrite !low_byte_lxor in H. apply lxor_cancel_l in H.
  change 0xFF with (Z.ones 8) in H.
  rewrite !Z.land_ones in H by lia. change (2 ^ 8) with 256 in H.
  rewrite !Z.mod_small in H by lia. exact H.
Qed.

(** One byte gives different steps from two checksums of 32 bits. *)
Lemma crc_step_inj_state : forall c1 c2 v,
    0 <= c1 < 2 ^ 32 -> 0 <= c2 < 2 ^ 32 ->
    crc_step generate_crc_lookup_table c1 v
    = crc_step generate_crc_lookup_table c2 v ->
    c1 = c2.
Proof.
  intros c1 c2 v H1 H2 H. unfold crc_step in H.
  assert (Hhi : forall c, 0 <= c < 2 ^ 32 -> Z.shiftr (Z.shiftr c 8) 24 = 0).
  { intros c Hc. rewrite Z.shiftr_shiftr by lia. simpl.
    rewrite Z.shiftr_div_pow2 by lia. apply Z.div_small. assumption. }
  pose proof H as Htop.
  apply (f_equal (fun t => Z.shiftr t 24)) in Htop.
  rewrite !Z.shiftr_lxor, !Hhi, !Z.lxor_0_r in Htop by assumption.
  apply table_index_inj in Htop; try apply low_byte_range.
  rewrite Htop in H. apply lxor_cancel_l in H.
  rewrite !low_byte_lxor in Htop. apply lxor_cancel_r in Htop.
  change 0xFF with (Z.ones 8) in Htop.
  rewrite !Z.land_ones in Htop by lia.
  rewrite !Z.shiftr_div_pow2 in H by lia.
  rewrite (Z.div_mod c1 (2 ^ 8)), (Z.div_mod c2 (2 ^ 8)) by lia.
  rewrite H, Htop. reflexivity.
Qed.

Lemma fold_crc_step_inj : forall l c1 c2,
    0 <= c1 < 2 ^ 32 -> 0 <= c2 < 2 ^ 32 ->
    fold_left (crc_step generate_crc_lookup_table) l c1
    = fold_left (crc_step generate_crc_lookup_table) l c2 ->
    c1 = c2.
Proof.
  induction l as [| v l IH]; intros c1 c2 H1 H2 H; simpl in H.
  - exact H.
  - apply IH in H; try (apply crc_step_range; assumption).
    eapply crc_step_inj_state; eassumption.
Qed.

Section CrcFacts.

Variable fast32_bits : Z.

Hypothesis fast32_wide : 32 <= fast32_bits.

Lemma complement_32 : forall x,
    0 <= x < 2 ^ 32 ->
    Z.land 0xFFFFFFFF (complement fast32_bits x) = 2 ^ 32 - 1 - x.
Proof.
  intros x Hx. unfold complement.
  assert (Hw : 2 ^ fast32_bits = 2 ^ 32 * 2 ^ (fast32_bits - 32)).
  { rewrite <- Z.pow_add_r by lia. f_equal. lia. }
  assert (Hk : 0 < 2 ^ (fast32_bits - 32))
    by (apply Z.pow_pos_nonneg; lia).
  assert (Hn : Z.lnot x mod 2 ^ fast32_bits = 2 ^ fast32_bits - 1 - x).
  { unfold Z.lnot. symmetry.
    apply (Z.mod_unique_pos _ _ (-1)); [nia | lia]. }
  rewrite Hn, Z.land_comm. change 0xFFFFFFFF with (Z.ones 32).
  rewrite Z.land_ones by lia. symmetry.
  apply (Z.mod_unique_pos _ _ (2 ^ (fast32_bits - 32) - 1)); [lia | nia].
Qed.

(** The checksum, with the complements of the 32 low bits written as
    subtractions. *)
Lemma crc_unfold : forall l,
    crc fast32_bits l
    = 2 ^ 32 - 1
      - fold_left (crc_step generate_crc_lookup_table) l (2 ^ 32 - 1).
Proof.
  intros l. unfold crc.
  assert (H0 : Z.land (complement fast32_bits 0) 0xFFFFFFFF = 2 ^ 32 - 1).
  { rewrite Z.land_comm, complement_32; lia. }
  rewrite H0. apply complement_32.
  apply fold_crc_step_range. lia.
Qed.

End CrcFacts.

(** X18.  The checksum does not depend on how wide the platform makes
    [std::uint_fast32_t]: for every two widths of at least 32 bits [crc]
    returns the same value for the same bytes, and the value fits 32
    bits. *)
Theorem crc_is_portable : forall w w' l,
    32 <= w -> 32 <= w' ->
    crc w l = crc w' l /\ 0 <= crc w l < 2 ^ 32.
Proof.
  intros w w' l Hw Hw'. rewrite !crc_unfold by assumption.
  split; [reflexivity |].
  pose proof (fold_crc_step_range l (2 ^ 32 - 1)) as H. lia.
Qed.

(** X19.  The checksum detects every corruption of one byte: two
    sequences that differ in exactly one position, by two different
    bytes there, never have the same [crc]. *)
Theorem crc_detects_one_byte : forall w l1 a b l2,
    32 <= w ->
    0 <= a < 256 -> 0 <= b < 256 ->
    a <> b ->
    crc w (l1 ++ a :: l2) <> crc w (l1 ++ b :: l2).
Proof.
  intros w l1 a b l2 Hw Ha Hb Hne H.
  rewrite !crc_unfold in H by assumption.
  rewrite !fold_left_app in H. cbn [fold_left] in H.
  assert (Hc : 0 <= fold_left (crc_step generate_crc_lookup_table) l1
                              (2 ^ 32 - 1) < 2 ^ 32)
    by (apply fold_crc_step_range; lia).
  set (c := fold_left (crc_step generate_crc_lookup_table) l1
                      (2 ^ 32 - 1)) in *.
  assert (E : fold_left (crc_step generate_crc_lookup_table) l2
                        (crc_step generate_crc_lookup_table c a)
              = fold_left (crc_step generate_crc_lookup_table) l2
                          (crc_step generate_crc_lookup_table c b))
    by lia.
  apply fold_crc_step_inj in E; try (apply crc_step_range; assumption).
  apply crc_step_inj_value in E; try assumption.
  contradiction.
Qed.

(** ** The table and the loop that fills it *)

Lemma nth_generate : forall count n i,
    (i < count)%nat ->
    nth i (generate count n) 0 = Nat.iter 8 checksum_round (n + Z.of_nat i).
Proof.
  induction count as [| count IH]; intros n i Hi; [lia |].
  destruct i as [| i].
  - cbn [generate byte_checksum fst snd nth]. f_equal. lia.
  - cbn [generate byte_checksum fst snd nth]. rewrite IH by lia.
    f_equal. lia.
Qed.

Lemma land_lxor_mask : forall x y m,
    Z.land (Z.lxor x y) m = Z.lxor (Z.land x m) (Z.land y m).
Proof.
  intros x y m. apply Z.bits_inj'. intros k Hk.
  rewrite Z.lxor_spec, !Z.land_spec, Z.lxor_spec.
  destruct (Z.testbit m k); [rewrite !andb_true_r | rewrite !andb_false_r];
    reflexivity.
Qed.

Lemma lxor_interchange : forall a b p q,
    Z.lxor (Z.lxor a b) (Z.lxor p q) = Z.lxor (Z.lxor a p) (Z.lxor b q).
Proof.
  intros a b p q. apply Z.bits_inj'. intros k Hk.
  rewrite !Z.lxor_spec.
  destruct (Z.testbit a k), (Z.testbit b k), (Z.testbit p k),
    (Z.testbit q k); reflexivity.
Qed.

Lemma low_bit_cases : forall x, Z.land x 1 = 0 \/ Z.land x 1 = 1.
Proof.
  intros x. change 1 with (Z.ones 1) at 1 2.
  rewrite Z.land_ones by lia. change (2 ^ 1) with 2.
  pose proof (Z.mod_pos_bound x 2). lia.
Qed.

(** The loop body is linear over exclusive or. *)
Lemma checksum_round_lxor : forall x y,
    checksum_round (Z.lxor x y)
    = Z.lxor (checksum_round x) (checksum_round y).
Proof.
  intros x y. unfold checksum_round.
  rewrite Z.shiftr_lxor, land_lxor_mask.
  destruct (low_bit_cases x) as [-> | ->],
           (low_bit_cases y) as [-> | ->];
    cbn [Z.lxor Pos.lxor Z.eqb Pos.eqb negb];
    rewrite lxor_interchange; reflexivity.
Qed.

Lemma iter_checksum_round_lxor : forall k x y,
    Nat.iter k checksum_round (Z.lxor x y)
    = Z.lxor (Nat.iter k checksum_round x) (Nat.iter k checksum_round y).
Proof.
  induction k as [| k IH]; intros x y.
  - reflexivity.
  - rewrite !Nat.iter_succ, IH. apply checksum_round_lxor.
Qed.

(** On a value whose [k] low bits are 0 the loop only shifts. *)
Lemma iter_checksum_round_shift : forall k x,
    (forall j, 0 <= j < Z.of_nat k -> Z.testbit x j = false) ->
    Nat.iter k checksum_round x = Z.shiftr x (Z.of_nat k).
Proof.
  induction k as [| k IH]; intros x Hlow.
  - symmetry. apply Z.shiftr_0_r.
  - rewrite Nat.iter_succ, IH by (intros j Hj; apply Hlow; lia).
    unfold checksum_round.
    assert (Hbit : Z.land (Z.shiftr x (Z.of_nat k)) 1 = 0).
    { change 1 with (Z.ones 1). rewrite Z.land_ones by lia.
      change (2 ^ 1) with 2. rewrite <- Z.bit0_mod.
      rewrite Z.shiftr_spec by lia. rewrite Hlow by lia. reflexivity. }
    rewrite Hbit. cbn [Z.eqb negb]. rewrite Z.lxor_0_r.
    rewrite Z.shiftr_shiftr by lia. f_equal. lia.
Qed.

(** X20.  The table is used as it was filled: one step of [crc] on a
    checksum and a byte, a table lookup and a shift by 8, gives what
    eight rounds of the loop of [byte_checksum] give on the exclusive or
    of the checksum and the byte. *)
Theorem crc_step_is_eight_rounds : forall c v,
    0 <= v < 256 ->
    crc_step generate_crc_lookup_table c v
    = Nat.iter 8 checksum_round (Z.lxor c v).
Proof.
  intros c v Hv. unfold crc_step.
  set (x := Z.lxor c v).
  set (lo := Z.land x 0xFF).
  pose proof (low_byte_range x) as Hlo. fold lo in Hlo.
  assert (Ex : x = Z.lxor lo (Z.lxor x lo)).
  { rewrite (Z.lxor_comm x lo), <- Z.lxor_assoc, Z.lxor_nilpotent.
    symmetry. apply Z.lxor_0_l. }
  assert (Hhi : forall j, 0 <= j < Z.of_nat 8 ->
                          Z.testbit (Z.lxor x lo) j = false).
  { intros j Hj. unfold lo. rewrite Z.lxor_spec, Z.land_spec.
    change 0xFF with (Z.ones 8).
    rewrite Z.ones_spec_low by lia. rewrite andb_true_r.
    apply xorb_nilpotent. }
  assert (Hsmall : forall t, 0 <= t < 256 -> Z.shiftr t 8 = 0).
  { intros t Ht. rewrite Z.shiftr_div_pow2 by lia.
    apply Z.div_small. change (2 ^ 8) with 256. lia. }
  replace (Nat.iter 8 checksum_round x)
    with (Nat.iter 8 checksum_round (Z.lxor lo (Z.lxor x lo)))
    by (rewrite <- Ex; reflexivity).
  rewrite iter_checksum_round_lxor.
  rewrite (iter_checksum_round_shift 8 _ Hhi).
  change (Z.of_nat 8) with 8.
  rewrite Z.shiftr_lxor, (Hsmall lo Hlo), Z.lxor_0_r.
  unfold x. rewrite Z.shiftr_lxor, (Hsmall v Hv), Z.lxor_0_r.
  f_equal. unfold generate_crc_lookup_table.
  rewrite nth_generate by lia. f_equal. lia.
Qed.

(** * Instances of the further properties *)

(** X1 at the full buffer. *)
Lemma used_space_within_capacity_witness :
  0 <= used_space four_of_four <= m_unit_count four_of_four /\
  0 <= free_space four_of_four <= m_unit_count four_of_four.
Proof.
  apply (used_space_within_capacity (UT := uint8_t) four_of_four).
  exists [1; 2; 3; 4].
  apply (run_history 4 four_of_four_calls). reflexivity.
Defined.

(** X2 at an insertion that wraps and an extraction that wraps. *)
Lemma used_space_accounting_witness :
  used_space (mkCircularBuffer 1 10 4 5
                (Some [11; 12; 13; 14; 5; 6; 7; 8; 9; 10]) 9)
  = used_space three_of_ten + 6 /\
  used_space (mkCircularBuffer 1 4 1 1 (Some [5; 2; 3; 4]) 0)
  = used_space wrapped_of_four - 3.
Proof.
  split.
  - apply (proj1 (used_space_accounting (UT := uint8_t) three_of_ten
                    [9; 10; 11; 12; 13; 14] 6
                    (mkCircularBuffer 1 10 4 5
                       (Some [11; 12; 13; 14; 5; 6; 7; 8; 9; 10]) 9)
                    0 [] three_of_ten)).
    reflexivity.
  - apply (proj2 (used_space_accounting (UT := uint8_t) wrapped_of_four
                    [] 0 wrapped_of_four 3 [3; 4; 5]
                    (mkCircularBuffer 1 4 1 1 (Some [5; 2; 3; 4]) 0))).
    reflexivity.
Defined.

(** X3 at an insertion, an extraction and a copy assignment into a
    buffer of another capacity. *)
Lemma capacity_is_fixed_witness :
  m_unit_count (mkCircularBuffer 1 4 3 0 (Some [1; 2; 3; 0]) 3) = 4 /\
  m_unit_count (mkCircularBuffer 1 4 2 1 (Some [1; 2; 0; 0]) 1) = 4 /\
  m_unit_count (mkCircularBuffer 1 10 2 0
                  (Some [1; 2; 3; 4; 5; 6; 7; 8; 0; 0]) 2) = 10.
Proof.
  split; [| split].
  - apply (proj1 (capacity_is_fixed (UT := uint8_t) two_of_four [3] 1 true
                    (mkCircularBuffer 1 4 3 0 (Some [1; 2; 3; 0]) 3)
                    [] two_of_four two_of_four two_of_four)).
    reflexivity.
  - apply (proj1 (proj2 (capacity_is_fixed (UT := uint8_t) two_of_four
                           [] 1 true two_of_four [1]
                           (mkCircularBuffer 1 4 2 1 (Some [1; 2; 0; 0]) 1)
                           two_of_four two_of_four))).
    reflexivity.
  - apply (proj2 (proj2 (proj2
             (capacity_is_fixed (UT := uint8_t) three_of_ten [] 0 true
                three_of_ten [] three_of_ten two_of_four
                (mkCircularBuffer 1 10 2 0
                   (Some [1; 2; 3; 4; 5; 6; 7; 8; 0; 0]) 2))))).
    reflexivity.
Defined.

(** X4 at the buffer constructed with capacity 0. *)
Lemma capacity_zero_rejects_all_witness :
  used_space none_of_none = 0 /\ free_space none_of_none = 0 /\
  insert_units none_of_none [1] 1 = Ok (false, none_of_none) /\
  extract_units none_of_none 0 = Ok (false, [], none_of_none).
Proof.
  pose proof (capacity_zero_rejects_all (UT := uint8_t) none_of_none) as H.
  split; [| split; [| split]].
  - apply (H [1] 1); [exists []; apply (hist_new 0) |]; reflexivity.
  - apply (H [1] 1); [exists []; apply (hist_new 0) |]; reflexivity.
  - apply (H [1] 1); [exists []; apply (hist_new 0) |]; reflexivity.
  - apply (H [1] 0); [exists []; apply (hist_new 0) |]; reflexivity.
Defined.

(** X5 at a count of -1. *)
Lemma negative_count_is_undefined_witness :
  insert_units two_of_four [3] (-1) = Fault OutOfBounds /\
  extract_units two_of_four (-1) = Fault OutOfBounds.
Proof.
  apply (negative_count_is_undefined (UT := uint8_t) eq_refl two_of_four
           [3] (-1)).
  - exists [1; 2]. apply (run_history 4 two_of_four_calls). reflexivity.
  - discriminate.
  - reflexivity.
Defined.

(** X6 at the full buffer of the scenario of C2. *)
Lemma full_with_equal_cursors_is_stuck_witness :
  insert_units full_of_four [7; 8] 2 = Ok (false, full_of_four) /\
  extract_units full_of_four 2 = Ok (false, [], full_of_four).
Proof.
  apply (full_with_equal_cursors_is_stuck (UT := uint8_t) full_of_four
           [7; 8] 2).
  - discriminate.
  - reflexivity.
  - reflexivity.
  - reflexivity.
Defined.

(** X7 at a buffer that holds two units. *)
Lemma copy_construct_never_copies_witness :
  copy_construct two_of_four = Fault AssertionFailed.
Proof.
  apply (copy_construct_never_copies (UT := uint8_t) two_of_four).
  - exists [1; 2]. apply (run_history 4 two_of_four_calls). reflexivity.
  - discriminate.
Defined.


(** X8 at the buffer of the scenario of the specification. *)
Lemma used_space_counts_units_witness :
  used_space three_of_ten = len [6; 7; 8].
Proof.
  apply (used_space_counts_units (UT := uint8_t) eq_refl three_of_ten).
  apply (run_history 10 three_of_ten_calls). reflexivity.
Defined.

(** X9 at the buffer whose units wrap, three units and an array of
    four. *)
Lemma calls_stay_in_bounds_witness :
  (exists ok s', insert_units wrapped_of_four [6; 7; 8; 9] 3 = Ok (ok, s')) /\
  (exists ok out s',
      extract_units wrapped_of_four 3 = Ok (ok, out, s') /\
      extract_units_to wrapped_of_four [6; 7; 8; 9] 3
      = Ok (ok, if ok then out ++ drop 3 [6; 7; 8; 9] else [6; 7; 8; 9],
            s')).
Proof.
  apply (calls_stay_in_bounds (UT := uint8_t) eq_refl wrapped_of_four
           [6; 7; 8; 9] 3).
  - exists [3; 4; 5].
    apply (run_history 4 wrapped_of_four_calls). reflexivity.
  - split; discriminate.
Defined.




(** X13 at the full buffer whose head equals its tail. *)
Lemma zero_count_is_accepted_witness :
  insert_units full_of_four [] 0 = Ok (true, full_of_four) /\
  extract_units full_of_four 0 = Ok (true, [], full_of_four).
Proof.
  apply (zero_count_is_accepted (UT := uint8_t) eq_refl full_of_four []).
  - exists [3; 4; 5; 6].
    apply (run_history 4 full_of_four_calls). reflexivity.
  - discriminate.
Defined.



(** X17 at the emptied buffer and as many units as its capacity. *)
Lemma reset_of_empty_round_trip_witness :
  exists s1 s2,
    insert_units (reset emptied_of_four) [5; 6; 7; 8] 4 = Ok (true, s1) /\
    extract_units s1 4 = Ok (true, take 4 [5; 6; 7; 8], s2).
Proof.
  apply (reset_of_empty_round_trip (UT := uint8_t) eq_refl emptied_of_four
           [] [5; 6; 7; 8] 4).
  - apply (run_history 4 emptied_of_four_calls). reflexivity.
  - reflexivity.
  - discriminate.
  - split; discriminate.
  - discriminate.
Defined.


(** X18 at widths of 32 and 64 bits and the bytes of "123456789". *)
Lemma crc_is_portable_witness :
  crc 32 [49; 50; 51; 52; 53; 54; 55; 56; 57]
  = crc 64 [49; 50; 51; 52; 53; 54; 55; 56; 57] /\
  0 <= crc 32 [49; 50; 51; 52; 53; 54; 55; 56; 57] < 2 ^ 32.
Proof.
  apply (crc_is_portable 32 64 [49; 50; 51; 52; 53; 54; 55; 56; 57]).
  - discriminate.
  - discriminate.
Defined.

(** X19 at one changed byte in the middle of three. *)
Lemma crc_detects_one_byte_witness :
  crc 64 ([1] ++ 2 :: [3]) <> crc 64 ([1] ++ 7 :: [3]).
Proof.
  apply (crc_detects_one_byte 64 [1] 2 7 [3]).
  - discriminate.
  - split; [discriminate | reflexivity].
  - split; [discriminate | reflexivity].
  - discriminate.
Defined.

(** X20 at the first step of a checksum, on the byte of "1". *)
Lemma crc_step_is_eight_rounds_witness :
  crc_step generate_crc_lookup_table 0xFFFFFFFF 49
  = Nat.iter 8 checksum_round (Z.lxor 0xFFFFFFFF 49).
Proof.
  apply (crc_step_is_eight_rounds 0xFFFFFFFF 49).
  split; [discriminate | reflexivity].
Defined.

(** * Units wider than a byte *)

Section Wide.

Context {Unit : Type} {UT : UnitType Unit}.

Implicit Types (s : CircularBuffer (Unit := Unit)).
Implicit Types (l us data : list Unit).

Lemma load_units_Ok : forall l off n,
    0 <= off -> 0 <= n -> off + n <= len l ->
    load (Some l) off (n * sizeof) = Ok (take n (drop off l)).
Proof.
  intros l off n H0 H1 H2. pose proof sizeof_pos as Hpos. unfold load.
  rewrite Z.div_mul by lia.
  assert (Hb : 0 <= n * sizeof) by nia.
  rewrite (proj2 (Z.leb_le _ _) H0), (proj2 (Z.leb_le _ _) Hb),
    (proj2 (Z.leb_le _ _) H2). reflexivity.
Qed.

Lemma memcpy_Ok_len : forall l doff src soff nbytes b,
    memcpy (Some l) doff src soff nbytes = Ok b ->
    exists l', b = Some l' /\ len l' = len l.
Proof.
  intros l doff src soff nbytes b H. unfold memcpy in H.
  apply bind_Ok in H. destruct H as (us & _ & Hs). unfold store in Hs.
  destruct (Z.leb_spec 0 doff) as [H0 |]; [| discriminate].
  destruct (Z.leb_spec (doff + len us) (len l)) as [H1 |]; [| discriminate].
  simpl in Hs. inversion Hs; subst. eexists. split; [reflexivity |].
  apply len_patch; assumption.
Qed.

(** X22.  With units of two bytes or more the storage cannot be used to
    its end: after a first insertion of [n1] units into a new buffer, a
    second insertion that fits the free space writes outside the storage
    as soon as [n1 * sizeof(Unit) + n2] exceeds the capacity, because the
    head is scaled by the unit size a second time. *)
Theorem wide_units_overrun : forall unit_count s0 data1 n1 s1 data2 n2,
    2 <= sizeof ->
    construct unit_count = Ok s0 ->
    insert_units s0 data1 n1 = Ok (true, s1) ->
    0 < n2 <= free_space s1 ->
    n2 <= len data2 ->
    unit_count < n1 * sizeof + n2 ->
    insert_units s1 data2 n2 = Fault OutOfBounds.
Proof.
  intros c s0 d1 n1 s1 d2 n2 Hk Hc Hi Hn2 Hd2 Hover.
  apply construct_Ok in Hc. destruct Hc as [Hc0 ->].
  apply insert_units_path in Hi.
  inversion Hi as [| | | | b A0 A1 A2 Hm | b1 b2 A0 A1 A2 A3 A4 Hm1 Hm2];
    subst; simpl in *; [| lia].
  destruct (Z.eqb_spec c 0) as [| _]; [contradiction |].
  pose proof Hm as Hsz. apply memcpy_Ok_size in Hsz.
  destruct Hsz as [_ Hsz]. apply scaled_nonneg in Hsz; [| lia].
  apply memcpy_Ok_len in Hm. destruct Hm as (l' & -> & Hl').
  rewrite len_repeat in Hl' by assumption.
  unfold free_space in Hn2. simpl in Hn2.
  unfold insert_units, inserted, get_buffer_head; simpl.
  rewrite (proj2 (Z.eqb_neq _ _) A0).
  rewrite (proj2 (Z.ltb_ge _ _) (proj2 Hn2)).
  rewrite (proj2 (Z.ltb_ge n1 0)) by lia.
  rewrite Z.geb_leb, (proj2 (Z.leb_le n2 (c - n1))) by lia.
  unfold memcpy. rewrite load_units_Ok by lia. cbn [bind].
  rewrite store_overrun; [reflexivity | nia |].
  rewrite len_take; [nia |]. rewrite drop_0. lia.
Qed.

End Wide.

(** X22 at units of two bytes and a capacity of 4. *)
Lemma wide_units_overrun_witness :
  insert_units (UT := uint16_t) two_of_four_wide [3; 4] 2
  = Fault OutOfBounds.
Proof.
  apply (wide_units_overrun (UT := uint16_t) 4
           (mkCircularBuffer 2 4 0 0 (Some [0; 0; 0; 0]) 0)
           [1; 2] 2 two_of_four_wide [3; 4] 2).
  - discriminate.
  - reflexivity.
  - reflexivity.
  - split; [reflexivity | discriminate].
  - discriminate.
  - reflexivity.
Defined.
